(** * The Tag integration: a shallow embedding of
    [homeassistant/components/tag/__init__.py]

    The module keeps a persisted collection of tag records keyed by id.
    It contributes an id manager ([TagIDManager.generate_id]), the two
    validation hooks of the collection ([_process_create_data] and
    [_update_data]) and the scan handler ([async_scan_tag]).

    Python dictionaries are finite maps with string keys ([gmap string _]):
    dictionary equality in Python ignores insertion order, and so does
    equality of [gmap]s.  Exceptions are an error type; the handlers that
    read or change the running system are state-passing functions over a
    [world] in which an exception leaves the effects performed so far in
    place, as in Python. *)

From Stdlib Require Import Ascii String NArith ZArith.
From stdpp Require Import gmap strings list fin_maps.

Open Scope string_scope.

(** ** Values *)

(** An aware or naive [datetime.datetime].  [utcoffset] is the offset of
    the attached time zone in seconds ([None] for a naive value). *)
Record datetime := mk_datetime {
  year : N; month : N; day : N;
  hour : N; minute : N; second : N; microsecond : N;
  utcoffset : option Z
}.

(** The Python values of the spec's data model, as they occur in tag
    records and in the payloads handed to the collection: [None], strings
    and datetimes, and lists as the containers that no field accepts. *)
#[warnings="-register-all"] Inductive value :=
  | VNone
  | VStr (s : string)
  | VDatetime (d : datetime)
  | VList (l : list value).

(** Python truthiness, as used by [if not data[TAG_ID]]. *)
Definition truthy (v : value) : bool :=
  match v with
  | VNone => false
  | VStr s => negb (String.eqb s "")
  | VDatetime _ => true
  | VList l => negb (bool_decide (l = []))
  end.

(** A tag record, a create input, an update patch: a [dict] with string
    keys. *)
Abbreviation dict := (gmap string value).

(** ** Exceptions *)

Inductive error :=
  | Invalid                          (* vol.Invalid / vol.MultipleInvalid *)
  | KeyError (key : string)
  | AttributeError (attr : string)
  | TagIDExistsError (item_id : string)
  | ItemNotFound (item_id : string)
  | HomeAssistantError (msg : string).

Inductive result (A : Type) :=
  | Ok (a : A)
  | Raise (e : error).
Arguments Ok {A} a.
Arguments Raise {A} e.

Definition rbind {A B} (r : result A) (k : A → result B) : result B :=
  match r with
  | Ok a => k a
  | Raise e => Raise e
  end.

Notation "'try' x <- r ; k" := (rbind r (fun x => k))
  (at level 10, x name, r at level 100, k at level 200,
   format "'[v' 'try'  x  <-  r ; '/' k ']'").

(** [data[key]]: a missing key raises [KeyError]. *)
Definition getitem (data : dict) (key : string) : result value :=
  match data !! key with
  | Some v => Ok v
  | None => Raise (KeyError key)
  end.

(** The message of [TagIDExistsError.__init__]. *)
Definition TagIDExistsError_message (item_id : string) : string :=
  "Tag with ID " +:+ item_id +:+ " already exists.".

(** ** Text forms of timestamps and UUIDs (Python standard library) *)

Definition digit_char (d : N) : ascii :=
  if (d <? 10)%N then ascii_of_N (48 + d) else ascii_of_N (87 + d).

(** [w] digits of [n] in base [b], most significant first, zero padded:
    ['%0wd' % n] for [b = 10] and ['%0wx' % n] for [b = 16]. *)
Fixpoint digits (b : N) (w : nat) (n : N) : string :=
  match w with
  | O => ""
  | S w' => digits b w' (n / b) +:+ String (digit_char (n mod b)) ""
  end.

(** The UTC offset suffix of [datetime.isoformat]: [+HH:MM], with [:SS]
    when the offset has a seconds part. *)
Definition format_offset (off : Z) : string :=
  let a := Z.to_N (Z.abs off) in
  let hh := (a / 3600)%N in
  let mm := ((a mod 3600) / 60)%N in
  let ss := (a mod 60)%N in
  (if (off <? 0)%Z then "-" else "+")
  +:+ digits 10 2 hh +:+ ":" +:+ digits 10 2 mm
  +:+ (if (ss =? 0)%N then "" else ":" +:+ digits 10 2 ss).

(** [datetime.isoformat()] with the default separator and time spec. *)
Definition isoformat (d : datetime) : string :=
  digits 10 4 (year d) +:+ "-" +:+ digits 10 2 (month d) +:+ "-"
  +:+ digits 10 2 (day d) +:+ "T"
  +:+ digits 10 2 (hour d) +:+ ":" +:+ digits 10 2 (minute d) +:+ ":"
  +:+ digits 10 2 (second d)
  +:+ (if (microsecond d =? 0)%N then ""
       else "." +:+ digits 10 6 (microsecond d))
  +:+ match utcoffset d with
      | None => ""
      | Some off => format_offset off
      end.

(** The method call [v.isoformat()] on an arbitrary value: only datetimes
    have the attribute. *)
Definition call_isoformat (v : value) : result string :=
  match v with
  | VDatetime d => Ok (isoformat d)
  | _ => Raise (AttributeError "isoformat")
  end.

(** [uuid.uuid4()] as a function of the 16 random bytes it draws, read as
    a big-endian integer: the variant and version bits are forced. *)
Definition uuid4_int (rnd : N) : N :=
  let i := (rnd mod 2 ^ 128)%N in
  let i := N.ldiff i (N.shiftl 0xc000 48) in
  let i := N.lor i (N.shiftl 0x8000 48) in
  let i := N.ldiff i (N.shiftl 0xf000 64) in
  N.lor i (N.shiftl 4 76).

(** [str(UUID)]: 32 hexadecimal digits cut 8-4-4-4-12. *)
Definition uuid_str (i : N) : string :=
  let h := digits 16 32 i in
  substring 0 8 h +:+ "-" +:+ substring 8 4 h +:+ "-"
  +:+ substring 12 4 h +:+ "-" +:+ substring 16 4 h +:+ "-"
  +:+ substring 20 12 h.

(** [str(uuid.uuid4())] *)
Definition uuid4_str (rnd : N) : string := uuid_str (uuid4_int rnd).

(** ** Constants *)

(** Modelled from the spec: the key and event names that the module imports
    from [.const] and [homeassistant.const], which are not part of the
    sources at hand.  The spec names the payload keys [tag_id], [name] and
    [device_id], the record field [id] and the "tag scanned" event. *)
Definition DOMAIN : string := "tag".
Definition EVENT_TAG_SCANNED : string := "tag_scanned".
Definition TAG_ID : string := "tag_id".
Definition DEVICE_ID : string := "device_id".
Definition CONF_NAME : string := "name".
Definition CONF_ID : string := "id".

Definition LAST_SCANNED : string := "last_scanned".
Definition DESCRIPTION : string := "description".

(** ** Validators and schemas *)

Abbreviation validator := (value → result value).

(** Modelled from the spec: [cv.string] of
    [homeassistant/helpers/config_validation.py], for which the spec only
    says that string fields are type checked: a string passes unchanged,
    [None] and containers are a [ValidationError]. *)
Definition cv_string : validator := λ v,
  match v with
  | VStr s => Ok (VStr s)
  | _ => Raise Invalid
  end.

(** Modelled from the spec: [cv.datetime] of the same absent module, for an
    "optional timestamp" field: a datetime passes unchanged. *)
Definition cv_datetime : validator := λ v,
  match v with
  | VDatetime d => Ok (VDatetime d)
  | _ => Raise Invalid
  end.

(** The type check [str] used as a voluptuous validator. *)
Definition vol_str : validator := λ v,
  match v with
  | VStr s => Ok (VStr s)
  | _ => Raise Invalid
  end.

(** [vol.Length(min=n)] *)
Definition vol_Length_min (n : nat) : validator := λ v,
  match v with
  | VStr s => if decide (String.length s < n) then Raise Invalid else Ok v
  | VList l => if decide (length l < n) then Raise Invalid else Ok v
  | _ => Raise Invalid
  end.

(** [vol.All(v1, v2, ...)]: every validator in turn, each on the output of
    the one before. *)
Fixpoint vol_All (vs : list validator) : validator := λ v,
  match vs with
  | [] => Ok v
  | f :: vs' => try v' <- f v; vol_All vs' v'
  end.

(** A dictionary of [vol.Optional(key): validator] entries. *)
Abbreviation fields := (gmap string validator).

Definition CREATE_FIELDS : fields :=
  <[TAG_ID := cv_string]>
  (<[CONF_NAME := vol_All [vol_str; vol_Length_min 1]]>
  (<[DESCRIPTION := cv_string]>
  (<[LAST_SCANNED := cv_datetime]>
  (<[DEVICE_ID := cv_string]> ∅)))).

Definition UPDATE_FIELDS : fields :=
  <[CONF_NAME := vol_All [vol_str; vol_Length_min 1]]>
  (<[DESCRIPTION := cv_string]>
  (<[LAST_SCANNED := cv_datetime]>
  (<[DEVICE_ID := cv_string]> ∅))).

(** What a schema makes of one entry of its input: the validated value, or
    nothing when the key is not a key of the schema or the value is
    refused. *)
Definition validate_entry (fs : fields) (key : string) (v : value)
  : option value :=
  match fs !! key with
  | Some f => match f v with Ok v' => Some v' | Raise _ => None end
  | None => None
  end.

(** [vol.Schema(fs)(data)] for a dictionary of optional keys without
    defaults: every entry of the input must be a known key with an
    accepted value (extra keys are not allowed), and the output has the
    validated value under every key of the input. *)
Definition Schema (fs : fields) (data : dict) : result dict :=
  if decide (map_Forall (λ k v, is_Some (validate_entry fs k v)) data)
  then Ok (map_imap (validate_entry fs) data)
  else Raise Invalid.

Definition CREATE_SCHEMA : dict → result dict := Schema CREATE_FIELDS.
Definition UPDATE_SCHEMA : dict → result dict := Schema UPDATE_FIELDS.

(** ** The running system *)

Inductive hass_context := Context_id (id : string).

Record event := mk_event {
  event_type : string;
  event_data : dict;
  event_context : option hass_context
}.

(** A change notification of the collection. *)
Inductive change :=
  | Added (item_id : string) (item : dict)
  | Updated (item_id : string) (old new : dict).

(** The [TagStorageCollection] object: the in-memory mapping, what its
    [Store] holds, and the change events delivered so far. *)
Record collection := mk_collection {
  coll_data : gmap string dict;
  coll_store : gmap string dict;
  coll_changes : list change
}.

(** What the system has been asked to do, oldest first: events fired on the
    bus and calls into the collection (recorded when the call is entered,
    whether or not it then succeeds). *)
Inductive action :=
  | Fired (e : event)
  | CallUpdate (item_id : string) (updates : dict)
  | CallCreate (data : dict).

(** The part of the running system the module touches.  [hass.data] is
    read at the typed key [TAG_DATA], under which [async_setup] stores the
    collection before the component counts as set up; the lookup is
    therefore a field access. *)
Record world := mk_world {
  components : gset string;       (* hass.config.components *)
  tag_data : collection;          (* hass.data[TAG_DATA] *)
  journal : list action;
  clock : datetime;               (* what dt_util.utcnow() reads *)
  urandom : nat → N;              (* the random bytes still to be drawn *)
  drawn : nat
}.

(** State passing with exceptions: the world reached is returned with an
    exception as well as with a value. *)
Definition M (A : Type) : Type := world → result A * world.

Definition ret {A} (a : A) : M A := λ w, (Ok a, w).
Definition raise {A} (e : error) : M A := λ w, (Raise e, w).
Definition lift {A} (r : result A) : M A := λ w, (r, w).
Definition bind {A B} (m : M A) (k : A → M B) : M B := λ w,
  match m w with
  | (Ok a, w') => k a w'
  | (Raise e, w') => (Raise e, w')
  end.

Notation "'do' x <- m ; k" := (bind m (fun x => k))
  (at level 10, x name, m at level 100, k at level 200,
   format "'[v' 'do'  x  <-  m ; '/' k ']'").

Definition gets {A} (f : world → A) : M A := λ w, (Ok (f w), w).

Definition set_tag_data (c : collection) (w : world) : world :=
  mk_world (components w) c (journal w) (clock w) (urandom w) (drawn w).

Definition record_action (a : action) : M unit := λ w,
  (Ok tt,
   mk_world (components w) (tag_data w) (journal w ++ [a]) (clock w)
     (urandom w) (drawn w)).

(** Modelled from the spec: [dt_util.utcnow()] of the absent
    [homeassistant/util/dt.py], the time of the call ("now"). *)
Definition utcnow : M datetime := gets clock.

(** [str(uuid.uuid4())]: consumes the next random draw. *)
Definition uuid4 : M string := λ w,
  (Ok (uuid4_str (urandom w (drawn w))),
   mk_world (components w) (tag_data w) (journal w) (clock w)
     (urandom w) (S (drawn w))).

(** Modelled from the spec: [hass.bus.async_fire(event_type, event_data,
    context=context)] of the absent [homeassistant/core.py], the event bus
    collaborator [fire(event_name, payload, context)]: the event is on the
    bus, tagged with the context, once the call returns. *)
Definition async_fire (ty : string) (payload : dict)
    (context : option hass_context) : M unit :=
  record_action (Fired (mk_event ty payload context)).

(** The events fired so far, oldest first. *)
Definition fired (w : world) : list event :=
  omap (λ a, match a with Fired e => Some e | _ => None end) (journal w).

(** ** The id manager *)

(** Modelled from the spec: [IDManager.has_id] of
    [homeassistant/helpers/collection.py], a pure lookup in the identifier
    registry, which is the set of ids currently in the collection (the
    manager holds the collection's own mapping, not a copy). *)
Definition has_id (item_id : string) : M bool :=
  gets (λ w, bool_decide (is_Some (coll_data (tag_data w) !! item_id))).

(** [TagIDManager.generate_id] *)
Definition generate_id (suggestion : string) : M string :=
  do taken <- has_id suggestion;
  if taken then raise (TagIDExistsError suggestion)
  else ret suggestion.

(** ** The tag collection *)

(** [TagStorageCollection._process_create_data] *)
Definition _process_create_data (data : dict) : M dict :=
  do data <- lift (CREATE_SCHEMA data);
  do tag_id <- lift (getitem data TAG_ID);
  do data <- (if negb (truthy tag_id)
              then do u <- uuid4; ret (<[TAG_ID := VStr u]> data)
              else ret data);
  if decide (is_Some (data !! LAST_SCANNED)) then
    do last_scanned <- lift (getitem data LAST_SCANNED);
    do iso <- lift (call_isoformat last_scanned);
    ret (<[LAST_SCANNED := VStr iso]> data)
  else ret data.

(** [TagStorageCollection._get_suggested_id]: [info[TAG_ID]], which the
    annotation [dict[str, str]] takes to be a string.  The id manager looks
    the suggestion up among string keys; a value of another type (which
    [_process_create_data] never leaves under [TAG_ID]) is reported as a
    missing key. *)
Definition _get_suggested_id (info : dict) : result string :=
  try v <- getitem info TAG_ID;
  match v with
  | VStr s => Ok s
  | _ => Raise (KeyError TAG_ID)
  end.

(** [TagStorageCollection._update_data]: [{**item, **validated}] is the
    union in which the validated patch wins. *)
Definition _update_data (item update_data : dict) : result dict :=
  try validated <- UPDATE_SCHEMA update_data;
  let data := validated ∪ item in
  if decide (is_Some (update_data !! LAST_SCANNED)) then
    try last_scanned <- getitem data LAST_SCANNED;
    try iso <- call_isoformat last_scanned;
    Ok (<[LAST_SCANNED := VStr iso]> data)
  else Ok data.

(** Modelled from the spec: the mutation shared by create and update in
    the absent [homeassistant/helpers/collection.py].  [item] is put under
    [item_id], the whole mapping is written through to the store, and the
    change is announced. *)
Definition store_item (item_id : string) (item : dict) (c : change)
  : M unit := λ w,
  let items := <[item_id := item]> (coll_data (tag_data w)) in
  (Ok tt,
   set_tag_data
     (mk_collection items items (coll_changes (tag_data w) ++ [c])) w).

(** Modelled from the spec: [async_create_item] of the absent
    [homeassistant/helpers/collection.py].  It validates and normalises the
    input through [_process_create_data], has the id manager confirm that
    the suggested id is free, inserts the record, persists, emits an
    [added] change event and returns the stored record. *)
Definition async_create_item (data : dict) : M dict :=
  do _ <- record_action (CallCreate data);
  do validated <- _process_create_data data;
  do suggestion <- lift (_get_suggested_id validated);
  do item_id <- generate_id suggestion;
  do _ <- store_item item_id validated (Added item_id validated);
  ret validated.

(** Modelled from the spec: [async_update_item] of the same absent module.
    It fails with a not-found error when the id is absent, and otherwise
    validates, merges and normalises through [_update_data], persists,
    emits an [updated] change event with the old and the new record and
    returns the updated record. *)
Definition async_update_item (item_id : string) (updates : dict) : M dict :=
  do _ <- record_action (CallUpdate item_id updates);
  do items <- gets (λ w, coll_data (tag_data w));
  match items !! item_id with
  | None => raise (ItemNotFound item_id)
  | Some current =>
      do updated <- lift (_update_data current updates);
      do _ <- store_item item_id updated (Updated item_id current updated);
      ret updated
  end.

(** ** The scan handler *)

(** [d.get(key)]: [None] when the key is missing. *)
Definition dict_get (d : dict) (key : string) : value :=
  default VNone (d !! key).

(** A device id of type [str | None] as a value. *)
Definition device_value (device_id : option string) : value :=
  match device_id with
  | Some d => VStr d
  | None => VNone
  end.

(** The payload of the "tag scanned" event. *)
Definition scan_payload (tag_id : string) (tag_name device : value) : dict :=
  <[TAG_ID := VStr tag_id]>
  (<[CONF_NAME := tag_name]>
  (<[DEVICE_ID := device]> ∅)).

(** [async_scan_tag].  The closing debug log line has no effect on the
    system and is left out. *)
Definition async_scan_tag (tag_id : string) (device_id : option string)
    (context : option hass_context) : M unit :=
  do comps <- gets components;
  if decide (DOMAIN ∉ comps) then
    raise (HomeAssistantError "tag component has not been set up.")
  else
    do storage_collection <- gets tag_data;
    let tag_name :=
      match coll_data storage_collection !! tag_id with
      | Some tag_data =>
          if decide (tag_data = ∅) then VNone
          else dict_get tag_data CONF_NAME
      | None => VNone
      end in
    do _ <- async_fire EVENT_TAG_SCANNED
              (scan_payload tag_id tag_name (device_value device_id))
              context;
    do items <- gets (λ w, coll_data (tag_data w));
    if decide (is_Some (items !! tag_id)) then
      do now <- utcnow;
      do _ <- async_update_item tag_id
                (<[LAST_SCANNED := VDatetime now]>
                 (<[DEVICE_ID := device_value device_id]> ∅));
      ret tt
    else
      do now <- utcnow;
      do _ <- async_create_item
                (<[TAG_ID := VStr tag_id]>
                 (<[LAST_SCANNED := VDatetime now]>
                 (<[DEVICE_ID := device_value device_id]> ∅)));
      ret tt.

(** * Vocabulary of the statements *)

(** The serialisation boundary: a record whose [last_scanned] timestamp,
    if it has one, is replaced by its ISO-8601 text. *)
Definition serialized (data : dict) : dict :=
  match data !! LAST_SCANNED with
  | Some (VDatetime d) => <[LAST_SCANNED := VStr (isoformat d)]> data
  | _ => data
  end.

(** The reading of "patch merged over the existing record" in which every
    field of the patch arrives as the patch has it. *)
Definition patch_fields_win (patch rec : dict) : Prop :=
  ∀ key v, patch !! key = Some v → rec !! key = Some v.

Definition other_fields_kept (item patch rec : dict) : Prop :=
  ∀ key, patch !! key = None → rec !! key = item !! key.

(** The world after an action has been recorded. *)
Definition recorded (a : action) (w : world) : world :=
  snd (record_action a w).

(** The world after [item] has been stored under [item_id]. *)
Definition stored (item_id : string) (item : dict) (c : change) (w : world)
  : world := snd (store_item item_id item c w).

(** Two worlds that differ at most in the number of random draws made. *)
Definition same_but_draws (w w' : world) : Prop :=
  components w' = components w ∧ tag_data w' = tag_data w
  ∧ journal w' = journal w ∧ clock w' = clock w.

(** The name the handler reads for the event: that of the existing record,
    [None] when there is no record or the record has no name. *)
Definition existing_name (w : world) (tag_id : string) : value :=
  match coll_data (tag_data w) !! tag_id with
  | Some rec => dict_get rec CONF_NAME
  | None => VNone
  end.

Definition scan_event (tag_id : string) (tag_name : value)
    (device_id : option string) (context : option hass_context) : event :=
  mk_event EVENT_TAG_SCANNED
    (scan_payload tag_id tag_name (device_value device_id)) context.

(** The patch and the create input the handler builds. *)
Definition scan_patch (now : datetime) (device_id : option string) : dict :=
  <[LAST_SCANNED := VDatetime now]>
  (<[DEVICE_ID := device_value device_id]> ∅).

Definition scan_input (tag_id : string) (now : datetime)
    (device_id : option string) : dict :=
  <[TAG_ID := VStr tag_id]> (scan_patch now device_id).

(** Dropping the value of a collection call, as the handler does. *)
Definition discard {A} (p : result A * world) : result unit * world :=
  match p with
  | (Ok _, w) => (Ok tt, w)
  | (Raise e, w) => (Raise e, w)
  end.

(** ** Worked inputs *)

Definition sample_time : datetime :=
  mk_datetime 2024 5 1 12 0 7 0 (Some 0%Z).

Definition front_door : dict :=
  {[ TAG_ID := VStr "T-1"; CONF_NAME := VStr "Front Door";
     DESCRIPTION := VStr "NFC sticker" ]}.

Definition rename_patch : dict :=
  {[ CONF_NAME := VStr "Back Door"; LAST_SCANNED := VDatetime sample_time ]}.

Definition empty_id_input : dict :=
  {[ TAG_ID := VStr ""; LAST_SCANNED := VDatetime sample_time ]}.

Definition given_id_input : dict :=
  {[ TAG_ID := VStr "T-2"; LAST_SCANNED := VDatetime sample_time ]}.

(** A system that has been set up and knows the front door tag, one that
    has been set up and knows no tag, and one that has not been set up. *)
Definition home_world : world :=
  mk_world {[ DOMAIN ]}
    (mk_collection {[ "T-1" := front_door ]} {[ "T-1" := front_door ]} [])
    [] sample_time (λ _, 0%N) 0.

Definition fresh_world : world :=
  mk_world {[ DOMAIN ]} (mk_collection ∅ ∅ []) [] sample_time (λ _, 0%N) 0.

Definition cold_world : world :=
  mk_world ∅ (mk_collection ∅ ∅ []) [] sample_time (λ _, 0%N) 0.

(** The merge read literally: every field of an accepted patch arrives as
    the patch has it, and the other fields are kept. *)
Definition update_copies_patch (item patch : dict) : Prop :=
  (∃ out, UPDATE_SCHEMA patch = Ok out) →
  ∃ rec,
    _update_data item patch = Ok rec
    ∧ patch_fields_win patch rec
    ∧ other_fields_kept item patch rec.

(** The scan of an unknown tag read literally, for any tag id and device:
    one event, and then a new record in the collection whose id is the
    scanned id. *)
Definition scan_creates_record_with_scanned_id (tag_id : string)
    (device_id : option string) (context : option hass_context)
    (w : world) : Prop :=
  DOMAIN ∈ components w →
  coll_data (tag_data w) !! tag_id = None →
  let out := async_scan_tag tag_id device_id context w in
  ∃ item_id item,
    fired (snd out)
      = (fired w ++ [scan_event tag_id VNone device_id context])%list
    ∧ coll_data (tag_data w) !! item_id = None
    ∧ coll_data (tag_data (snd out)) !! item_id = Some item
    ∧ item !! TAG_ID = Some (VStr tag_id)
    ∧ item !! LAST_SCANNED = Some (VStr (isoformat (clock w)))
    ∧ item !! DEVICE_ID = Some (device_value device_id).

(** ** Vocabulary of the further properties *)

(** A schema accepts an input. *)
Definition accepts (schema : dict → result dict) (data : dict) : Prop :=
  ∃ out, schema data = Ok out.

(** The UUID string the next call of [uuid4] returns. *)
Definition next_uuid (w : world) : string :=
  uuid4_str (urandom w (drawn w)).

(** Keys and ids agree: every record of a mapping is stored under its own
    [tag_id], and that id is not empty. *)
Definition ids_consistent (items : gmap string dict) : Prop :=
  ∀ key rec,
    items !! key = Some rec → rec !! TAG_ID = Some (VStr key) ∧ key ≠ "".

Definition describe_patch : dict :=
  {[ DESCRIPTION := VStr "By the gate" ]}.

Definition colour_patch : dict :=
  {[ "colour" := VStr "red" ]}.

(** A call of the scan handler: tag id, device id, context. *)
Definition scan_request : Type :=
  string * option string * option hass_context.

(** The system after a sequence of scans made one after the other, each
    caller going its way whether its scan returned or raised. *)
Definition run_scans (reqs : list scan_request) (w : world) : world :=
  foldl (λ w0 '(tag_id, device_id, context),
           snd (async_scan_tag tag_id device_id context w0)) w reqs.

(** The event is the tag-scanned event of the request. *)
Definition event_of_scan (ev : event) (req : scan_request) : Prop :=
  let '(tag_id, device_id, context) := req in
  event_type ev = EVENT_TAG_SCANNED
  ∧ event_data ev !! TAG_ID = Some (VStr tag_id)
  ∧ event_data ev !! DEVICE_ID = Some (device_value device_id)
  ∧ event_context ev = context.

(** * Properties *)

(** ** The text forms *)

Lemma length_append (s t : string) :
  String.length (s +:+ t) = (String.length s + String.length t)%nat.
Proof. induction s as [|c s IH]; simpl; [done | by rewrite IH]. Qed.

Lemma length_substring (s : string) (n m : nat) :
  (n + m ≤ String.length s)%nat → String.length (substring n m s) = m.
Proof.
  revert n m. induction s as [|c s IH]; intros [|n] [|m]; simpl; intros Hle;
    try done; try lia.
  - f_equal. apply (IH 0 m). lia.
  - apply (IH n 0). lia.
  - apply (IH n (S m)). lia.
Qed.

Lemma length_digits (b : N) (w : nat) (n : N) :
  String.length (digits b w n) = w.
Proof.
  revert n. induction w as [|w IH]; intros n; simpl; [done|].
  rewrite length_append, IH. simpl. lia.
Qed.

(** A UUID string has 36 characters whatever the random draw was. *)
Lemma length_uuid_str (i : N) : String.length (uuid_str i) = 36.
Proof.
  unfold uuid_str. rewrite !length_append.
  rewrite !length_substring by (rewrite length_digits; lia). done.
Qed.

Lemma uuid4_str_nonempty (rnd : N) : uuid4_str rnd ≠ "".
Proof.
  intros Heq. pose proof (length_uuid_str (uuid4_int rnd)) as Hlen.
  unfold uuid4_str in Heq. rewrite Heq in Hlen. discriminate.
Qed.

Lemma truthy_VStr (s : string) : truthy (VStr s) = false ↔ s = "".
Proof.
  simpl. rewrite negb_false_iff. apply String.eqb_eq.
Qed.

(** ** Schemas *)

Section schema.
Variable fs : fields.
Implicit Types data out : dict.

Lemma Schema_result data :
  Schema fs data = Ok (map_imap (validate_entry fs) data)
  ∨ Schema fs data = Raise Invalid.
Proof. unfold Schema. case_decide; auto. Qed.

Lemma Schema_Ok_lookup data out key :
  Schema fs data = Ok out →
  out !! key = data !! key ≫= validate_entry fs key.
Proof.
  unfold Schema. case_decide; [|done]. intros [= <-].
  apply map_lookup_imap.
Qed.

(** An accepted input has only known keys with accepted values, and the
    output carries the validated value under the same key. *)
Lemma Schema_Ok_entry data out key v :
  Schema fs data = Ok out → data !! key = Some v →
  ∃ f v', fs !! key = Some f ∧ f v = Ok v' ∧ out !! key = Some v'.
Proof.
  intros Hs Hk. pose proof (Schema_Ok_lookup _ _ key Hs) as Hout.
  rewrite Hk in Hout. simpl in Hout.
  unfold Schema in Hs. case_decide as Hall; [|done].
  destruct (Hall key v Hk) as [v' Hv']. rewrite Hv' in Hout.
  unfold validate_entry in Hv'.
  destruct (fs !! key) as [f|]; [|done].
  destruct (f v) as [v''|] eqn:Hf; [|done].
  exists f, v''. by simplify_eq.
Qed.

Lemma Schema_Ok_None data out key :
  Schema fs data = Ok out → data !! key = None → out !! key = None.
Proof.
  intros Hs Hk. rewrite (Schema_Ok_lookup _ _ key Hs), Hk. done.
Qed.

(** Extra keys are not allowed. *)
Lemma Schema_unknown_key data key :
  fs !! key = None → is_Some (data !! key) → Schema fs data = Raise Invalid.
Proof.
  intros Hfs [v Hv]. destruct (Schema_result data) as [Hs|]; [|done].
  destruct (Schema_Ok_entry _ _ _ _ Hs Hv) as (f & v' & Hf & _).
  congruence.
Qed.

(** When every validator of the schema returns what it accepts, so does
    the schema. *)
Lemma Schema_Ok_id data out :
  (∀ key f v v', fs !! key = Some f → f v = Ok v' → v' = v) →
  Schema fs data = Ok out → out = data.
Proof.
  intros Hid Hs. apply map_eq. intros key.
  destruct (data !! key) as [v|] eqn:Hk.
  - destruct (Schema_Ok_entry _ _ _ _ Hs Hk) as (f & v' & Hf & Hv & ->).
    f_equal. eauto.
  - eauto using Schema_Ok_None.
Qed.
End schema.

Lemma vol_All_name_id (v v' : value) :
  vol_All [vol_str; vol_Length_min 1] v = Ok v' → v' = v.
Proof.
  destruct v as [|s|d|l]; simpl; try done.
  case_decide; simpl; congruence.
Qed.

Lemma cv_string_id (v v' : value) : cv_string v = Ok v' → v' = v.
Proof. destruct v; simpl; congruence. Qed.

Lemma cv_datetime_id (v v' : value) : cv_datetime v = Ok v' → v' = v.
Proof. destruct v; simpl; congruence. Qed.

Lemma cv_string_Ok (v v' : value) : cv_string v = Ok v' → ∃ s, v = VStr s.
Proof. destruct v; simpl; try done. eauto. Qed.

Lemma cv_datetime_Ok (v v' : value) :
  cv_datetime v = Ok v' → ∃ d, v = VDatetime d.
Proof. destruct v; simpl; try done. eauto. Qed.

(** Case analysis on which field of a schema a key is. *)
Ltac field_cases H :=
  repeat (rewrite lookup_insert in H; case_decide; simplify_eq);
  try (rewrite lookup_empty in H; discriminate H).

Lemma CREATE_FIELDS_id key f v v' :
  CREATE_FIELDS !! key = Some f → f v = Ok v' → v' = v.
Proof.
  unfold CREATE_FIELDS. intros Hf Hv. field_cases Hf;
    eauto using cv_string_id, cv_datetime_id, vol_All_name_id.
Qed.

Lemma UPDATE_FIELDS_id key f v v' :
  UPDATE_FIELDS !! key = Some f → f v = Ok v' → v' = v.
Proof.
  unfold UPDATE_FIELDS. intros Hf Hv. field_cases Hf;
    eauto using cv_string_id, cv_datetime_id, vol_All_name_id.
Qed.

Lemma CREATE_SCHEMA_Ok_id (data out : dict) :
  CREATE_SCHEMA data = Ok out → out = data.
Proof. apply Schema_Ok_id, CREATE_FIELDS_id. Qed.

Lemma UPDATE_SCHEMA_Ok_id (data out : dict) :
  UPDATE_SCHEMA data = Ok out → out = data.
Proof. apply Schema_Ok_id, UPDATE_FIELDS_id. Qed.

(** What the two schemas accept under the keys the module reads back. *)
Lemma CREATE_SCHEMA_tag_id (data out : dict) (v : value) :
  CREATE_SCHEMA data = Ok out → data !! TAG_ID = Some v → ∃ s, v = VStr s.
Proof.
  intros Hs Hk. destruct (Schema_Ok_entry _ _ _ _ _ Hs Hk) as (f & v' & Hf & Hv & _).
  vm_compute in Hf. simplify_eq. eauto using cv_string_Ok.
Qed.

Lemma CREATE_SCHEMA_last_scanned (data out : dict) (v : value) :
  CREATE_SCHEMA data = Ok out → data !! LAST_SCANNED = Some v →
  ∃ d, v = VDatetime d.
Proof.
  intros Hs Hk. destruct (Schema_Ok_entry _ _ _ _ _ Hs Hk) as (f & v' & Hf & Hv & _).
  vm_compute in Hf. simplify_eq. eauto using cv_datetime_Ok.
Qed.

Lemma UPDATE_SCHEMA_last_scanned (data out : dict) (v : value) :
  UPDATE_SCHEMA data = Ok out → data !! LAST_SCANNED = Some v →
  ∃ d, v = VDatetime d.
Proof.
  intros Hs Hk. destruct (Schema_Ok_entry _ _ _ _ _ Hs Hk) as (f & v' & Hf & Hv & _).
  vm_compute in Hf. simplify_eq. eauto using cv_datetime_Ok.
Qed.

(** ** Creating records *)

Lemma serialized_lookup_ne (data : dict) (key : string) :
  key ≠ LAST_SCANNED → serialized data !! key = data !! key.
Proof.
  intros Hne. unfold serialized.
  destruct (data !! LAST_SCANNED) as [[]|]; try done.
  by rewrite lookup_insert_ne.
Qed.

Lemma serialized_last_scanned (data : dict) (d : datetime) :
  data !! LAST_SCANNED = Some (VDatetime d) →
  serialized data !! LAST_SCANNED = Some (VStr (isoformat d)).
Proof.
  intros Hd. unfold serialized. rewrite Hd. apply lookup_insert_eq.
Qed.

(** The last step of both hooks, on a record whose [last_scanned] went
    through [cv.datetime]. *)
Lemma serialize_step (data : dict) (w : world) :
  (∀ v, data !! LAST_SCANNED = Some v → ∃ d, v = VDatetime d) →
  (if decide (is_Some (data !! LAST_SCANNED)) then
     do last_scanned <- lift (getitem data LAST_SCANNED);
     do iso <- lift (call_isoformat last_scanned);
     ret (<[LAST_SCANNED := VStr iso]> data)
   else ret data) w = (Ok (serialized data), w).
Proof.
  intros Hdt. unfold serialized, bind, lift, ret, getitem.
  destruct (data !! LAST_SCANNED) as [v|] eqn:Hv.
  - destruct (Hdt v eq_refl) as [d ->].
    rewrite decide_True by eauto. done.
  - rewrite decide_False by (intros [? ?]; done). done.
Qed.

(** An accepted input without [tag_id]: the subscript [data[TAG_ID]]
    raises. *)
Lemma process_create_data_missing_id (data out : dict) (w : world) :
  CREATE_SCHEMA data = Ok out → data !! TAG_ID = None →
  _process_create_data data w = (Raise (KeyError TAG_ID), w).
Proof.
  intros Hs Hk. pose proof (CREATE_SCHEMA_Ok_id _ _ Hs) as ->.
  unfold _process_create_data, bind, lift, getitem. by rewrite Hs, Hk.
Qed.

(** An accepted input with a non-empty [tag_id] keeps it. *)
Lemma process_create_data_given_id (data out : dict) (s : string) (w : world) :
  CREATE_SCHEMA data = Ok out → data !! TAG_ID = Some (VStr s) → s ≠ "" →
  _process_create_data data w = (Ok (serialized data), w).
Proof.
  intros Hs Hk Hne. pose proof (CREATE_SCHEMA_Ok_id _ _ Hs) as ->.
  unfold _process_create_data.
  unfold bind at 1. unfold lift at 1. rewrite Hs.
  unfold bind at 1. unfold lift at 1. unfold getitem at 1. rewrite Hk.
  unfold bind at 1.
  destruct (truthy (VStr s)) eqn:Ht.
  - simpl. unfold ret at 1. apply serialize_step.
    eauto using CREATE_SCHEMA_last_scanned.
  - by apply truthy_VStr in Ht.
Qed.

(** An accepted input with an empty [tag_id] gets a UUID from the next
    random draw. *)
Lemma process_create_data_empty_id (data out : dict) (w : world) :
  CREATE_SCHEMA data = Ok out → data !! TAG_ID = Some (VStr "") →
  _process_create_data data w =
    (Ok (serialized
           (<[TAG_ID := VStr (uuid4_str (urandom w (drawn w)))]> data)),
     snd (uuid4 w)).
Proof.
  intros Hs Hk. pose proof (CREATE_SCHEMA_Ok_id _ _ Hs) as ->.
  unfold _process_create_data.
  unfold bind at 1. unfold lift at 1. rewrite Hs.
  unfold bind at 1. unfold lift at 1. unfold getitem at 1. rewrite Hk.
  unfold bind at 1. change (negb (truthy (VStr ""))) with true. cbv iota.
  unfold bind at 1. unfold uuid4 at 1. unfold ret at 1. cbv beta iota.
  rewrite serialize_step; [done|].
  intros v. rewrite lookup_insert_ne by done.
  eauto using CREATE_SCHEMA_last_scanned.
Qed.

(** Every run of [_process_create_data] that returns a record leaves a
    non-empty string under [tag_id]. *)
Lemma process_create_data_id_nonempty (data item : dict) (w w' : world) :
  _process_create_data data w = (Ok item, w') →
  ∃ s, item !! TAG_ID = Some (VStr s) ∧ s ≠ "".
Proof.
  intros Hrun. destruct (CREATE_SCHEMA data) as [out|e] eqn:Hs.
  2: { unfold _process_create_data, bind, lift in Hrun. by rewrite Hs in Hrun. }
  destruct (data !! TAG_ID) as [v|] eqn:Hk.
  2: { by rewrite (process_create_data_missing_id _ _ _ Hs Hk) in Hrun. }
  destruct (CREATE_SCHEMA_tag_id _ _ _ Hs Hk) as [s ->].
  destruct (decide (s = "")) as [->|Hne].
  - rewrite (process_create_data_empty_id _ _ _ Hs Hk) in Hrun.
    simplify_eq. eexists. split; [|apply uuid4_str_nonempty].
    rewrite serialized_lookup_ne by done. apply lookup_insert_eq.
  - rewrite (process_create_data_given_id _ _ _ _ Hs Hk Hne) in Hrun.
    simplify_eq. exists s. split; [|done].
    by rewrite serialized_lookup_ne.
Qed.

(** C1.  A create input that names no id, here one that only carries a
    name, is accepted by the create schema, and [_process_create_data]
    then raises [KeyError] on [data[TAG_ID]] instead of generating a UUID:
    no record is returned and no random draw is made. *)
Theorem process_create_data_without_id_raises (w : world) :
  CREATE_SCHEMA {[ CONF_NAME := VStr "Kitchen" ]}
    = Ok {[ CONF_NAME := VStr "Kitchen" ]}
  ∧ _process_create_data {[ CONF_NAME := VStr "Kitchen" ]} w
    = (Raise (KeyError TAG_ID), w).
Proof.
  assert (CREATE_SCHEMA {[ CONF_NAME := VStr "Kitchen" ]}
          = Ok {[ CONF_NAME := VStr "Kitchen" ]}) as Hs by by vm_compute.
  split; [done|].
  by apply (process_create_data_missing_id _ _ _ Hs).
Qed.

(** C10.  A create input accepted by the create schema whose id is the
    empty string comes back with the id replaced by the UUID string of the
    next random draw, which has 36 characters and so is not empty; the
    call returns a record, and the draw is consumed. *)
Theorem process_create_data_empty_id_gets_uuid
    (data out : dict) (w : world) :
  CREATE_SCHEMA data = Ok out →
  data !! TAG_ID = Some (VStr "") →
  ∃ item u,
    _process_create_data data w = (Ok item, snd (uuid4 w))
    ∧ u = uuid4_str (urandom w (drawn w))
    ∧ item !! TAG_ID = Some (VStr u)
    ∧ String.length u = 36
    ∧ item !! TAG_ID ≠ Some (VStr "").
Proof.
  intros Hs Hk.
  set (u := uuid4_str (urandom w (drawn w))).
  assert (serialized (<[TAG_ID := VStr u]> data) !! TAG_ID = Some (VStr u))
    as Hid.
  { rewrite serialized_lookup_ne by done. apply lookup_insert_eq. }
  exists (serialized (<[TAG_ID := VStr u]> data)), u.
  split; [by apply (process_create_data_empty_id _ _ _ Hs Hk)|].
  split; [done|]. split; [done|]. split; [apply length_uuid_str|].
  rewrite Hid. intros Heq. apply (uuid4_str_nonempty (urandom w (drawn w))).
  fold u. congruence.
Qed.

(** ** Updating records *)

(** [_update_data] on a patch the update schema accepts: the patch, with
    its timestamp serialised, laid over the existing record. *)
Lemma update_data_accepted (item patch out : dict) :
  UPDATE_SCHEMA patch = Ok out →
  _update_data item patch = Ok (serialized patch ∪ item).
Proof.
  intros Hs. pose proof (UPDATE_SCHEMA_Ok_id _ _ Hs) as ->.
  unfold _update_data, rbind. rewrite Hs. unfold serialized, getitem.
  destruct (patch !! LAST_SCANNED) as [v|] eqn:Hv.
  - destruct (UPDATE_SCHEMA_last_scanned _ _ _ Hs Hv) as [d ->].
    rewrite decide_True by eauto.
    rewrite (lookup_union_Some_l _ _ _ _ Hv). simpl.
    by rewrite insert_union_l.
  - by rewrite decide_False by (intros [? ?]; done).
Qed.

(** A field the patch does not name is the existing record's. *)
Lemma serialized_union_kept (item patch : dict) (key : string) :
  patch !! key = None → (serialized patch ∪ item) !! key = item !! key.
Proof.
  intros Hk. apply lookup_union_r.
  destruct (decide (key = LAST_SCANNED)) as [->|Hne].
  - unfold serialized. by rewrite Hk.
  - by rewrite serialized_lookup_ne.
Qed.

Lemma update_data_rejected (item patch : dict) :
  UPDATE_SCHEMA patch = Raise Invalid →
  _update_data item patch = Raise Invalid.
Proof. intros Hs. unfold _update_data, rbind. by rewrite Hs. Qed.

(** C3, as amended.  For every existing record and every patch the update
    schema accepts, [_update_data] returns a record in which every field
    named in the patch other than [last_scanned] has the patch's value,
    [last_scanned] (when the patch carries a timestamp) has the ISO-8601
    text of that timestamp, and every field not named in the patch keeps
    its previous value. *)
Theorem update_data_merges_patch (item patch out : dict) :
  UPDATE_SCHEMA patch = Ok out →
  ∃ rec,
    _update_data item patch = Ok rec
    ∧ (∀ key v, key ≠ LAST_SCANNED →
         patch !! key = Some v → rec !! key = Some v)
    ∧ (∀ d, patch !! LAST_SCANNED = Some (VDatetime d) →
         rec !! LAST_SCANNED = Some (VStr (isoformat d)))
    ∧ other_fields_kept item patch rec.
Proof.
  intros Hs. exists (serialized patch ∪ item).
  split; [by apply (update_data_accepted _ _ out)|].
  split; [|split].
  - intros key v Hne Hk. apply lookup_union_Some_l.
    by rewrite serialized_lookup_ne.
  - intros d Hd. apply lookup_union_Some_l.
    by apply serialized_last_scanned.
  - intros key Hk. by apply serialized_union_kept.
Qed.

(** C8.  A create input or update patch that carries a [last_scanned]
    timestamp and is accepted by its schema (with an id, for a create
    input) makes [_process_create_data] and [_update_data] return a record
    whose [last_scanned] is the ISO-8601 text of that timestamp; and no
    record returned by [_process_create_data], nor by [_update_data] for a
    patch that names [last_scanned], holds a datetime value under
    [last_scanned]. *)
Theorem last_scanned_is_stored_as_iso_text
    (data item patch : dict) (d : datetime) (w : world) :
  (data !! LAST_SCANNED = Some (VDatetime d) →
   is_Some (data !! TAG_ID) →
   (∃ out, CREATE_SCHEMA data = Ok out) →
   ∃ rec w',
     _process_create_data data w = (Ok rec, w')
     ∧ rec !! LAST_SCANNED = Some (VStr (isoformat d)))
  ∧ (patch !! LAST_SCANNED = Some (VDatetime d) →
     (∃ out, UPDATE_SCHEMA patch = Ok out) →
     ∃ rec,
       _update_data item patch = Ok rec
       ∧ rec !! LAST_SCANNED = Some (VStr (isoformat d)))
  ∧ (∀ rec w' d',
       _process_create_data data w = (Ok rec, w') →
       rec !! LAST_SCANNED ≠ Some (VDatetime d'))
  ∧ (∀ rec d',
       is_Some (patch !! LAST_SCANNED) →
       _update_data item patch = Ok rec →
       rec !! LAST_SCANNED ≠ Some (VDatetime d')).
Proof.
  split; [|split; [|split]].
  - intros Hd [v Hk] [out Hs].
    destruct (CREATE_SCHEMA_tag_id _ _ _ Hs Hk) as [s ->].
    destruct (decide (s = "")) as [->|Hne].
    + eexists _, _. split; [by apply (process_create_data_empty_id _ out)|].
      apply serialized_last_scanned. by rewrite lookup_insert_ne.
    + eexists _, _.
      split; [by apply (process_create_data_given_id _ out s)|].
      by apply serialized_last_scanned.
  - intros Hd [out Hs]. exists (serialized patch ∪ item).
    split; [by apply (update_data_accepted _ _ out)|].
    apply lookup_union_Some_l. by apply serialized_last_scanned.
  - intros rec w' d' Hrun Hl.
    destruct (CREATE_SCHEMA data) as [out|e] eqn:Hs.
    2: { unfold _process_create_data, bind, lift in Hrun.
         by rewrite Hs in Hrun. }
    destruct (data !! TAG_ID) as [v|] eqn:Hk.
    2: { by rewrite (process_create_data_missing_id _ _ _ Hs Hk) in Hrun. }
    destruct (CREATE_SCHEMA_tag_id _ _ _ Hs Hk) as [s ->].
    assert (∃ data', rec = serialized data'
                     ∧ data' !! LAST_SCANNED = data !! LAST_SCANNED)
      as (data' & -> & Hsame).
    { destruct (decide (s = "")) as [->|Hne].
      - rewrite (process_create_data_empty_id _ _ _ Hs Hk) in Hrun.
        simplify_eq. eexists. split; [done|]. by rewrite lookup_insert_ne.
      - rewrite (process_create_data_given_id _ _ _ _ Hs Hk Hne) in Hrun.
        simplify_eq. eauto. }
    unfold serialized in Hl.
    destruct (data' !! LAST_SCANNED) as [[]|] eqn:Hv;
      rewrite ?lookup_insert_eq in Hl; congruence.
  - intros rec d' [v Hv] Hrun Hl.
    destruct (UPDATE_SCHEMA patch) as [out|e] eqn:Hs.
    2: { unfold _update_data, rbind in Hrun. by rewrite Hs in Hrun. }
    rewrite (update_data_accepted _ _ _ Hs) in Hrun. injection Hrun as <-.
    destruct (UPDATE_SCHEMA_last_scanned _ _ _ Hs Hv) as [d0 ->].
    rewrite (lookup_union_Some_l _ _ _ _ (serialized_last_scanned _ _ Hv))
      in Hl.
    discriminate Hl.
Qed.

(** C9.  The update schema has the fields of the create schema less
    [tag_id]; a patch it accepts names neither [tag_id] nor [id], and the
    record [_update_data] returns for it has the existing record's
    [tag_id] and [id]. *)
Theorem update_data_keeps_id (item patch out : dict) :
  UPDATE_SCHEMA patch = Ok out →
  dom UPDATE_FIELDS = dom CREATE_FIELDS ∖ {[ TAG_ID ]}
  ∧ patch !! TAG_ID = None
  ∧ patch !! CONF_ID = None
  ∧ ∃ rec,
      _update_data item patch = Ok rec
      ∧ rec !! TAG_ID = item !! TAG_ID
      ∧ rec !! CONF_ID = item !! CONF_ID.
Proof.
  intros Hs.
  assert (∀ key, UPDATE_FIELDS !! key = None → patch !! key = None) as Hno.
  { intros key Hf. destruct (patch !! key) as [v|] eqn:Hk; [|done].
    assert (Schema UPDATE_FIELDS patch = Raise Invalid) as Hbad
      by (apply (Schema_unknown_key _ _ key); eauto).
    unfold UPDATE_SCHEMA in Hs. congruence. }
  assert (patch !! TAG_ID = None) as Htag by by apply Hno.
  assert (patch !! CONF_ID = None) as Hid by by apply Hno.
  split; [|split; [done|split; [done|]]].
  - unfold UPDATE_FIELDS, CREATE_FIELDS. rewrite !dom_insert_L.
    rewrite dom_empty_L. unfold TAG_ID, CONF_NAME, DESCRIPTION, LAST_SCANNED,
      DEVICE_ID. set_solver.
  - exists (serialized patch ∪ item).
    split; [by apply (update_data_accepted _ _ out)|].
    split; by apply serialized_union_kept.
Qed.

(** A patch that names [tag_id] is refused by the update schema, so
    [_update_data] raises and returns no record at all. *)
Lemma update_data_refuses_id (item patch : dict) :
  is_Some (patch !! TAG_ID) → _update_data item patch = Raise Invalid.
Proof.
  intros Hk. apply update_data_rejected.
  by apply (Schema_unknown_key UPDATE_FIELDS patch TAG_ID).
Qed.

(** ** The id manager *)

Lemma generate_id_run (suggestion : string) (w : world) :
  generate_id suggestion w =
    (if bool_decide (is_Some (coll_data (tag_data w) !! suggestion))
     then Raise (TagIDExistsError suggestion) else Ok suggestion, w).
Proof.
  unfold generate_id, bind, has_id, gets, raise, ret. by case_bool_decide.
Qed.

(** ** Calls into the collection *)

Lemma same_but_draws_refl (w : world) : same_but_draws w w.
Proof. done. Qed.

Lemma same_but_draws_uuid4 (w : world) : same_but_draws w (snd (uuid4 w)).
Proof. done. Qed.

(** [_process_create_data] reads and writes nothing but the random
    source. *)
Lemma process_create_data_frame (data : dict) (w : world) :
  same_but_draws w (snd (_process_create_data data w)).
Proof.
  destruct (CREATE_SCHEMA data) as [out|e] eqn:Hs.
  2: { unfold _process_create_data, bind, lift. by rewrite Hs. }
  destruct (data !! TAG_ID) as [v|] eqn:Hk.
  2: { by rewrite (process_create_data_missing_id _ _ _ Hs Hk). }
  destruct (CREATE_SCHEMA_tag_id _ _ _ Hs Hk) as [s ->].
  destruct (decide (s = "")) as [->|Hne].
  - by rewrite (process_create_data_empty_id _ _ _ Hs Hk).
  - by rewrite (process_create_data_given_id _ _ _ _ Hs Hk Hne).
Qed.

(** [async_update_item] on an id of the collection. *)
Lemma async_update_item_run (item_id : string) (updates current : dict)
    (w : world) :
  coll_data (tag_data w) !! item_id = Some current →
  async_update_item item_id updates w =
    match _update_data current updates with
    | Ok updated =>
        (Ok updated,
         stored item_id updated (Updated item_id current updated)
           (recorded (CallUpdate item_id updates) w))
    | Raise e => (Raise e, recorded (CallUpdate item_id updates) w)
    end.
Proof.
  intros Hcur. unfold async_update_item, bind, gets, lift, ret, recorded.
  simpl. rewrite Hcur. by destruct (_update_data current updates).
Qed.

Lemma async_update_item_missing (item_id : string) (updates : dict)
    (w : world) :
  coll_data (tag_data w) !! item_id = None →
  async_update_item item_id updates w =
    (Raise (ItemNotFound item_id), recorded (CallUpdate item_id updates) w).
Proof.
  intros Hcur. unfold async_update_item, bind, gets, raise, recorded.
  simpl. by rewrite Hcur.
Qed.

(** The call is in the journal, after what was there, whatever comes of
    it. *)
Lemma async_update_item_journal (item_id : string) (updates : dict)
    (w : world) :
  journal (snd (async_update_item item_id updates w))
  = (journal w ++ [CallUpdate item_id updates])%list.
Proof.
  destruct (coll_data (tag_data w) !! item_id) as [current|] eqn:Hcur.
  - rewrite (async_update_item_run _ _ _ _ Hcur).
    by destruct (_update_data current updates).
  - by rewrite (async_update_item_missing _ _ _ Hcur).
Qed.

(** A failed update leaves the collection as it was. *)
Lemma async_update_item_failure (item_id : string) (updates : dict)
    (e : error) (w : world) :
  fst (async_update_item item_id updates w) = Raise e →
  tag_data (snd (async_update_item item_id updates w)) = tag_data w.
Proof.
  destruct (coll_data (tag_data w) !! item_id) as [current|] eqn:Hcur.
  - rewrite (async_update_item_run _ _ _ _ Hcur).
    by destruct (_update_data current updates).
  - by rewrite (async_update_item_missing _ _ _ Hcur).
Qed.

(** [async_create_item], step by step. *)
Lemma async_create_item_run (data : dict) (w : world) :
  async_create_item data w =
    match _process_create_data data (recorded (CallCreate data) w) with
    | (Raise e, w2) => (Raise e, w2)
    | (Ok validated, w2) =>
        match _get_suggested_id validated with
        | Raise e => (Raise e, w2)
        | Ok s =>
            if bool_decide (is_Some (coll_data (tag_data w2) !! s))
            then (Raise (TagIDExistsError s), w2)
            else (Ok validated, stored s validated (Added s validated) w2)
        end
    end.
Proof.
  unfold async_create_item. unfold bind at 1.
  change (record_action (CallCreate data) w)
    with (Ok tt, recorded (CallCreate data) w).
  cbv iota. unfold bind at 1.
  destruct (_process_create_data data (recorded (CallCreate data) w))
    as [[validated|e] w2]; [|done].
  unfold bind at 1, lift.
  destruct (_get_suggested_id validated) as [s|e]; [|done].
  unfold bind at 1. rewrite generate_id_run.
  by case_bool_decide.
Qed.

Lemma async_create_item_journal (data : dict) (w : world) :
  journal (snd (async_create_item data w))
  = (journal w ++ [CallCreate data])%list.
Proof.
  rewrite async_create_item_run.
  pose proof (process_create_data_frame data (recorded (CallCreate data) w))
    as (_ & _ & Hj & _).
  destruct (_process_create_data data (recorded (CallCreate data) w))
    as [[validated|e] w2]; [|done].
  destruct (_get_suggested_id validated) as [s|e]; [|done].
  by case_bool_decide.
Qed.

(** A failed create leaves the collection as it was. *)
Lemma async_create_item_failure (data : dict) (e : error) (w : world) :
  fst (async_create_item data w) = Raise e →
  tag_data (snd (async_create_item data w)) = tag_data w.
Proof.
  rewrite async_create_item_run.
  pose proof (process_create_data_frame data (recorded (CallCreate data) w))
    as (_ & Ht & _).
  destruct (_process_create_data data (recorded (CallCreate data) w))
    as [[validated|e'] w2]; [|done].
  destruct (_get_suggested_id validated) as [s|e']; [|done].
  by case_bool_decide.
Qed.

(** Creating with an id that is already in the collection fails with
    [TagIDExistsError] and leaves the collection unchanged. *)
Lemma async_create_item_duplicate (data out : dict) (s : string) (w : world) :
  CREATE_SCHEMA data = Ok out → data !! TAG_ID = Some (VStr s) → s ≠ "" →
  is_Some (coll_data (tag_data w) !! s) →
  fst (async_create_item data w) = Raise (TagIDExistsError s)
  ∧ tag_data (snd (async_create_item data w)) = tag_data w.
Proof.
  intros Hs Hk Hne Hin.
  assert (fst (async_create_item data w) = Raise (TagIDExistsError s)) as Hr.
  { rewrite async_create_item_run.
    rewrite (process_create_data_given_id _ _ _ _ Hs Hk Hne).
    unfold _get_suggested_id, rbind, getitem.
    rewrite serialized_lookup_ne by done. rewrite Hk.
    by rewrite bool_decide_eq_true_2. }
  split; [done|]. by apply (async_create_item_failure _ _ _ Hr).
Qed.

(** C2.  [generate_id] raises [TagIDExistsError] carrying the suggestion
    exactly when the suggestion is an id of the collection, returns the
    suggestion unchanged exactly when it is not, and in either case leaves
    the whole system, the collection included, as it was.  A create with
    an id that is taken therefore fails with that error and leaves the
    collection unchanged. *)
Theorem generate_id_raises_iff_taken (suggestion : string) (w : world) :
  (fst (generate_id suggestion w) = Raise (TagIDExistsError suggestion)
     ↔ is_Some (coll_data (tag_data w) !! suggestion))
  ∧ (fst (generate_id suggestion w) = Ok suggestion
     ↔ coll_data (tag_data w) !! suggestion = None)
  ∧ snd (generate_id suggestion w) = w
  ∧ (∀ data out,
       CREATE_SCHEMA data = Ok out →
       data !! TAG_ID = Some (VStr suggestion) →
       suggestion ≠ "" →
       is_Some (coll_data (tag_data w) !! suggestion) →
       fst (async_create_item data w) = Raise (TagIDExistsError suggestion)
       ∧ tag_data (snd (async_create_item data w)) = tag_data w).
Proof.
  rewrite generate_id_run. simpl.
  split; [|split; [|split; [done|]]].
  - case_bool_decide as Hin; [done|]. split; [done|]. by intros ?.
  - case_bool_decide as Hin.
    + split; [done|]. intros Hnone. rewrite Hnone in Hin. by destruct Hin.
    + split; [|done]. intros _. by apply eq_None_not_Some.
  - intros data out. apply async_create_item_duplicate.
Qed.

(** ** The scan handler *)

Lemma discard_snd {A} (p : result A * world) : snd (discard p) = snd p.
Proof. by destruct p as [[] ?]. Qed.

Lemma discard_fst_Raise {A} (p : result A * world) (e : error) :
  fst (discard p) = Raise e → fst p = Raise e.
Proof. destruct p as [[] ?]; simpl; congruence. Qed.

Lemma tag_data_recorded (a : action) (w : world) :
  tag_data (recorded a w) = tag_data w.
Proof. done. Qed.

Lemma clock_recorded (a : action) (w : world) :
  clock (recorded a w) = clock w.
Proof. done. Qed.

Lemma scan_known (tag_id : string) (device_id : option string)
    (context : option hass_context) (rec : dict) (w : world) :
  DOMAIN ∈ components w →
  coll_data (tag_data w) !! tag_id = Some rec →
  async_scan_tag tag_id device_id context w =
    discard
      (async_update_item tag_id (scan_patch (clock w) device_id)
         (recorded
            (Fired (scan_event tag_id (dict_get rec CONF_NAME) device_id
                      context)) w)).
Proof.
  intros Hset Hrec. unfold async_scan_tag. unfold bind at 1, gets at 1.
  rewrite decide_False by (intros Hno; by apply Hno).
  unfold bind at 1, gets at 1. rewrite Hrec.
  assert ((if decide (rec = ∅) then VNone else dict_get rec CONF_NAME)
          = dict_get rec CONF_NAME) as ->.
  { case_decide as He; [|done]. by rewrite He. }
  unfold bind at 1, async_fire.
  change (record_action ?a w) with (Ok tt, recorded a w). cbv iota.
  unfold bind at 1, gets at 1. rewrite tag_data_recorded, Hrec.
  rewrite decide_True by eauto.
  unfold bind at 1, utcnow, gets at 1. rewrite clock_recorded.
  unfold bind at 1. unfold discard, scan_patch, scan_event.
  by destruct (async_update_item _ _ _) as [[] ?].
Qed.

Lemma scan_unknown (tag_id : string) (device_id : option string)
    (context : option hass_context) (w : world) :
  DOMAIN ∈ components w →
  coll_data (tag_data w) !! tag_id = None →
  async_scan_tag tag_id device_id context w =
    discard
      (async_create_item (scan_input tag_id (clock w) device_id)
         (recorded (Fired (scan_event tag_id VNone device_id context)) w)).
Proof.
  intros Hset Hrec. unfold async_scan_tag. unfold bind at 1, gets at 1.
  rewrite decide_False by (intros Hno; by apply Hno).
  unfold bind at 1, gets at 1. rewrite Hrec.
  unfold bind at 1, async_fire.
  change (record_action ?a w) with (Ok tt, recorded a w). cbv iota.
  unfold bind at 1, gets at 1. rewrite tag_data_recorded, Hrec.
  rewrite decide_False by (intros [? ?]; done).
  unfold bind at 1, utcnow, gets at 1. rewrite clock_recorded.
  unfold bind at 1. unfold discard, scan_input, scan_patch, scan_event.
  by destruct (async_create_item _ _) as [[] ?].
Qed.

Lemma fired_app (w w' : world) (acts : list action) :
  journal w' = (journal w ++ acts)%list →
  fired w' = (fired w
              ++ omap (λ a, match a with Fired e => Some e | _ => None end)
                   acts)%list.
Proof. intros Hj. unfold fired. by rewrite Hj, omap_app. Qed.

(** The journal after a scan of a known tag: the event, then the update
    call, whether or not the update went through. *)
Lemma scan_known_journal (tag_id : string) (device_id : option string)
    (context : option hass_context) (rec : dict) (w : world) :
  DOMAIN ∈ components w →
  coll_data (tag_data w) !! tag_id = Some rec →
  journal (snd (async_scan_tag tag_id device_id context w))
  = (journal w
     ++ [Fired (scan_event tag_id (dict_get rec CONF_NAME) device_id context);
         CallUpdate tag_id (scan_patch (clock w) device_id)])%list.
Proof.
  intros Hset Hrec. rewrite (scan_known _ _ _ _ _ Hset Hrec), discard_snd.
  rewrite async_update_item_journal. simpl. by rewrite <- app_assoc.
Qed.

(** The journal after a scan of an unknown tag: the event, then the create
    call. *)
Lemma scan_unknown_journal (tag_id : string) (device_id : option string)
    (context : option hass_context) (w : world) :
  DOMAIN ∈ components w →
  coll_data (tag_data w) !! tag_id = None →
  journal (snd (async_scan_tag tag_id device_id context w))
  = (journal w
     ++ [Fired (scan_event tag_id VNone device_id context);
         CallCreate (scan_input tag_id (clock w) device_id)])%list.
Proof.
  intros Hset Hrec. rewrite (scan_unknown _ _ _ _ Hset Hrec), discard_snd.
  rewrite async_create_item_journal. simpl. by rewrite <- app_assoc.
Qed.

(** C7.  A scan before the tag component has been set up raises the
    not-set-up error and leaves the whole system as it was: no event on the
    bus, no call into the collection, no change to its records.  The
    system a later call finds is the one this call found. *)
Theorem scan_before_setup_fails_without_effect
    (tag_id : string) (device_id : option string)
    (context : option hass_context) (w : world) :
  DOMAIN ∉ components w →
  let out := async_scan_tag tag_id device_id context w in
  fst out = Raise (HomeAssistantError "tag component has not been set up.")
  ∧ snd out = w
  ∧ fired (snd out) = fired w
  ∧ journal (snd out) = journal w
  ∧ tag_data (snd out) = tag_data w.
Proof.
  intros Hno out.
  assert (out = (Raise (HomeAssistantError
                          "tag component has not been set up."), w)) as ->.
  { subst out. unfold async_scan_tag. unfold bind at 1, gets at 1.
    by rewrite decide_True. }
  done.
Qed.

(** C4.  In a system that has been set up, every scan, whatever its outcome,
    extends the journal by exactly two entries: first the tag-scanned
    event, then the one call into the collection (an update for a known id,
    a create otherwise).  The event is therefore on the bus before the
    collection is touched; and when that call raises, the handler raises
    with the event still on the bus and the collection as it was. *)
Theorem scan_fires_event_before_persisting
    (tag_id : string) (device_id : option string)
    (context : option hass_context) (w : world) :
  DOMAIN ∈ components w →
  let out := async_scan_tag tag_id device_id context w in
  let ev := scan_event tag_id (existing_name w tag_id) device_id context in
  ∃ call,
    journal (snd out) = (journal w ++ [Fired ev; call])%list
    ∧ (call = CallUpdate tag_id (scan_patch (clock w) device_id)
       ∨ call = CallCreate (scan_input tag_id (clock w) device_id))
    ∧ fired (snd out) = (fired w ++ [ev])%list
    ∧ (∀ e, fst out = Raise e →
         ev ∈ fired (snd out) ∧ tag_data (snd out) = tag_data w).
Proof.
  intros Hset out ev. subst out ev. unfold existing_name.
  destruct (coll_data (tag_data w) !! tag_id) as [rec|] eqn:Hrec.
  - exists (CallUpdate tag_id (scan_patch (clock w) device_id)).
    pose proof (scan_known_journal _ device_id context _ _ Hset Hrec) as Hj.
    pose proof (fired_app _ _ _ Hj) as Hfired. simpl in Hfired.
    split; [done|]. split; [by left|]. split; [done|].
    intros e He. split.
    + rewrite Hfired. apply elem_of_app. right. by apply list_elem_of_singleton.
    + revert He. rewrite (scan_known _ _ _ _ _ Hset Hrec), discard_snd.
      intros He%discard_fst_Raise.
      by rewrite (async_update_item_failure _ _ _ _ He).
  - exists (CallCreate (scan_input tag_id (clock w) device_id)).
    pose proof (scan_unknown_journal _ device_id context _ Hset Hrec) as Hj.
    pose proof (fired_app _ _ _ Hj) as Hfired. simpl in Hfired.
    split; [done|]. split; [by right|]. split; [done|].
    intros e He. split.
    + rewrite Hfired. apply elem_of_app. right. by apply list_elem_of_singleton.
    + revert He. rewrite (scan_unknown _ _ _ _ Hset Hrec), discard_snd.
      intros He%discard_fst_Raise.
      by rewrite (async_create_item_failure _ _ _ He).
Qed.

(** What the update schema makes of the handler's patch. *)
Lemma UPDATE_SCHEMA_scan_patch (now : datetime) (d : string) :
  UPDATE_SCHEMA (scan_patch now (Some d)) = Ok (scan_patch now (Some d)).
Proof.
  assert (∃ out, UPDATE_SCHEMA (scan_patch now (Some d)) = Ok out)
    as [out Hs].
  { unfold UPDATE_SCHEMA, Schema. rewrite decide_True; [eauto|].
    intros key v Hk. unfold scan_patch in Hk. field_cases Hk; by eexists. }
  by rewrite Hs, (UPDATE_SCHEMA_Ok_id _ _ Hs).
Qed.

Lemma UPDATE_SCHEMA_scan_patch_no_device (now : datetime) :
  UPDATE_SCHEMA (scan_patch now None) = Raise Invalid.
Proof.
  unfold UPDATE_SCHEMA, Schema. rewrite decide_False; [done|].
  intros Hall. destruct (Hall DEVICE_ID VNone) as [v Hv]; [done|].
  by vm_compute in Hv.
Qed.

Lemma CREATE_SCHEMA_scan_input (tag_id : string) (now : datetime)
    (d : string) :
  CREATE_SCHEMA (scan_input tag_id now (Some d))
  = Ok (scan_input tag_id now (Some d)).
Proof.
  assert (∃ out, CREATE_SCHEMA (scan_input tag_id now (Some d)) = Ok out)
    as [out Hs].
  { unfold CREATE_SCHEMA, Schema. rewrite decide_True; [eauto|].
    intros key v Hk. unfold scan_input, scan_patch in Hk.
    field_cases Hk; by eexists. }
  by rewrite Hs, (CREATE_SCHEMA_Ok_id _ _ Hs).
Qed.

(** The record an accepted scan patch leaves behind. *)
Lemma update_data_scan_patch (rec : dict) (now : datetime) (d : string) :
  _update_data rec (scan_patch now (Some d))
  = Ok (<[LAST_SCANNED := VStr (isoformat now)]>
        (<[DEVICE_ID := VStr d]> rec)).
Proof.
  rewrite (update_data_accepted _ _ _ (UPDATE_SCHEMA_scan_patch now d)).
  f_equal. unfold serialized, scan_patch. rewrite lookup_insert_eq.
  rewrite insert_insert_eq. simpl.
  by rewrite <- !insert_union_l, (left_id ∅ (∪)).
Qed.

(** A scan of a known tag by a device that has an id: the event carries
    the record's name, and the record is updated with the ISO-8601 text of
    the call time and the device, everything else in it kept. *)
Lemma scan_known_tag_with_device (tag_id d : string)
    (context : option hass_context) (rec : dict) (w : world) :
  DOMAIN ∈ components w →
  coll_data (tag_data w) !! tag_id = Some rec →
  let out := async_scan_tag tag_id (Some d) context w in
  let rec' := <[LAST_SCANNED := VStr (isoformat (clock w))]>
              (<[DEVICE_ID := VStr d]> rec) in
  fst out = Ok tt
  ∧ fired (snd out)
    = (fired w
       ++ [scan_event tag_id (dict_get rec CONF_NAME) (Some d) context])%list
  ∧ coll_data (tag_data (snd out))
    = <[tag_id := rec']> (coll_data (tag_data w))
  ∧ rec' !! CONF_NAME = rec !! CONF_NAME
  ∧ rec' !! DESCRIPTION = rec !! DESCRIPTION
  ∧ rec' !! TAG_ID = rec !! TAG_ID.
Proof.
  intros Hset Hrec out rec'.
  pose proof (fired_app _ _ _
                (scan_known_journal _ (Some d) context _ _ Hset Hrec))
    as Hfired.
  split; [|split; [done|]]; subst out.
  - rewrite (scan_known _ _ _ _ _ Hset Hrec).
    rewrite (async_update_item_run _ _ rec) by done.
    by rewrite update_data_scan_patch.
  - rewrite (scan_known _ _ _ _ _ Hset Hrec), discard_snd.
    rewrite (async_update_item_run _ _ rec) by done.
    rewrite update_data_scan_patch. split; [done|].
    subst rec'. by rewrite !lookup_insert_ne by done.
Qed.

(** C5.  A scan of a known tag by a caller without a device id
    ([device_id] is [None], which the handler's signature admits) fires
    the event with the record's name and then fails: the update schema
    refuses the patch [{last_scanned: now, device_id: None}], the handler
    raises, and the record is not updated. *)
Theorem scan_known_tag_without_device_raises
    (tag_id : string) (context : option hass_context) (rec : dict)
    (w : world) :
  DOMAIN ∈ components w →
  coll_data (tag_data w) !! tag_id = Some rec →
  let out := async_scan_tag tag_id None context w in
  fst out = Raise Invalid
  ∧ fired (snd out)
    = (fired w
       ++ [scan_event tag_id (dict_get rec CONF_NAME) None context])%list
  ∧ tag_data (snd out) = tag_data w.
Proof.
  intros Hset Hrec out.
  pose proof (fired_app _ _ _
                (scan_known_journal _ None context _ _ Hset Hrec))
    as Hfired.
  split; [|split; [done|]]; subst out.
  - rewrite (scan_known _ _ _ _ _ Hset Hrec).
    rewrite (async_update_item_run _ _ rec) by done.
    by rewrite (update_data_rejected _ _
                  (UPDATE_SCHEMA_scan_patch_no_device _)).
  - rewrite (scan_known _ _ _ _ _ Hset Hrec), discard_snd.
    rewrite (async_update_item_run _ _ rec) by done.
    by rewrite (update_data_rejected _ _
                  (UPDATE_SCHEMA_scan_patch_no_device _)).
Qed.

(** C6, as amended.  A scan of a non-empty tag id that is not in the
    collection, by a device that has an id, fires exactly one tag-scanned
    event with that tag id, the name [None] and the device id, and then
    creates, under the scanned id, a record whose [tag_id] is the scanned
    id, whose [last_scanned] is the ISO-8601 text of the call time and
    whose [device_id] is the scanning device. *)
Theorem scan_unknown_tag_creates_record
    (tag_id d : string) (context : option hass_context) (w : world) :
  DOMAIN ∈ components w →
  coll_data (tag_data w) !! tag_id = None →
  tag_id ≠ "" →
  let out := async_scan_tag tag_id (Some d) context w in
  ∃ item,
    fst out = Ok tt
    ∧ fired (snd out)
      = (fired w ++ [scan_event tag_id VNone (Some d) context])%list
    ∧ journal (snd out)
      = (journal w
         ++ [Fired (scan_event tag_id VNone (Some d) context);
             CallCreate (scan_input tag_id (clock w) (Some d))])%list
    ∧ coll_data (tag_data (snd out))
      = <[tag_id := item]> (coll_data (tag_data w))
    ∧ item !! TAG_ID = Some (VStr tag_id)
    ∧ item !! LAST_SCANNED = Some (VStr (isoformat (clock w)))
    ∧ item !! DEVICE_ID = Some (VStr d).
Proof.
  intros Hset Hrec Hne out.
  pose proof (scan_unknown_journal _ (Some d) context _ Hset Hrec) as Hj.
  pose proof (fired_app _ _ _ Hj) as Hfired.
  pose proof (CREATE_SCHEMA_scan_input tag_id (clock w) d) as Hs.
  assert (scan_input tag_id (clock w) (Some d) !! TAG_ID
          = Some (VStr tag_id)) as Hk by done.
  exists (serialized (scan_input tag_id (clock w) (Some d))).
  assert (async_create_item (scan_input tag_id (clock w) (Some d))
            (recorded (Fired (scan_event tag_id VNone (Some d) context)) w)
          = (Ok (serialized (scan_input tag_id (clock w) (Some d))),
             stored tag_id (serialized (scan_input tag_id (clock w) (Some d)))
               (Added tag_id
                  (serialized (scan_input tag_id (clock w) (Some d))))
               (recorded (CallCreate (scan_input tag_id (clock w) (Some d)))
                  (recorded
                     (Fired (scan_event tag_id VNone (Some d) context)) w))))
    as Hrun.
  { rewrite async_create_item_run.
    rewrite (process_create_data_given_id _ _ _ _ Hs Hk Hne).
    unfold _get_suggested_id, rbind, getitem.
    rewrite serialized_lookup_ne by done. rewrite Hk.
    rewrite bool_decide_eq_false_2; [done|].
    rewrite !tag_data_recorded, Hrec. by intros [? ?]. }
  subst out. rewrite (scan_unknown _ _ _ _ Hset Hrec) in *.
  rewrite discard_snd in *. rewrite Hrun in *. simpl fst. simpl snd.
  split; [done|]. split; [done|]. split; [done|]. split; [done|].
  split; [by rewrite serialized_lookup_ne|].
  split; [by apply serialized_last_scanned|].
  by rewrite serialized_lookup_ne.
Qed.

(** ** Where the claims as worded fail *)

Example uuid4_str_zero : uuid4_str 0 = "00000000-0000-4000-8000-000000000000".
Proof. reflexivity. Qed.

Example isoformat_sample : isoformat sample_time = "2024-05-01T12:00:07+00:00".
Proof. reflexivity. Qed.

(** The patch [{last_scanned: <datetime>}] is accepted, and the record
    returned for it holds the timestamp's text, not the patch's value. *)
Lemma update_data_rewrites_timestamp :
  ¬ update_copies_patch front_door {[ LAST_SCANNED := VDatetime sample_time ]}.
Proof.
  intros Hclaim. destruct Hclaim as (rec & Hrun & Hwin & _).
  { eexists. vm_compute. reflexivity. }
  specialize (Hwin LAST_SCANNED (VDatetime sample_time) eq_refl).
  rewrite (update_data_accepted _ _ {[ LAST_SCANNED := VDatetime sample_time ]})
    in Hrun by (vm_compute; reflexivity).
  injection Hrun as <-. vm_compute in Hwin. discriminate Hwin.
Qed.

(** What a scan of the empty tag id leaves in a system that knew no tag:
    one record, stored under a UUID and carrying that UUID as its id. *)
Lemma scan_of_empty_tag_id_collection :
  coll_data (tag_data
    (snd (async_scan_tag "" (Some "reader") None fresh_world)))
  = {[ "00000000-0000-4000-8000-000000000000" :=
         {[ TAG_ID := VStr "00000000-0000-4000-8000-000000000000";
            LAST_SCANNED := VStr "2024-05-01T12:00:07+00:00";
            DEVICE_ID := VStr "reader" ]} ]}.
Proof. vm_compute. reflexivity. Qed.

(** A scan of the empty tag id is a scan of an unknown tag, and the record
    it creates does not have the scanned id. *)
Lemma scan_of_empty_tag_id_creates_uuid_record :
  ¬ scan_creates_record_with_scanned_id "" (Some "reader") None fresh_world.
Proof.
  intros Hclaim.
  destruct Hclaim as (item_id & item & _ & _ & Hitem & Hid & _);
    [set_solver | done |].
  rewrite scan_of_empty_tag_id_collection in Hitem.
  apply lookup_singleton_Some in Hitem as [_ <-].
  vm_compute in Hid. discriminate Hid.
Qed.

(** ** The theorems at the worked inputs *)

Lemma process_create_data_empty_id_gets_uuid_witness :
  CREATE_SCHEMA empty_id_input = Ok empty_id_input
  ∧ empty_id_input !! TAG_ID = Some (VStr "")
  ∧ ∃ item u,
      _process_create_data empty_id_input fresh_world
        = (Ok item, snd (uuid4 fresh_world))
      ∧ u = uuid4_str (urandom fresh_world (drawn fresh_world))
      ∧ item !! TAG_ID = Some (VStr u)
      ∧ String.length u = 36
      ∧ item !! TAG_ID ≠ Some (VStr "").
Proof.
  assert (CREATE_SCHEMA empty_id_input = Ok empty_id_input) as Hs
    by (vm_compute; reflexivity).
  assert (empty_id_input !! TAG_ID = Some (VStr "")) as Hk
    by (vm_compute; reflexivity).
  split; [exact Hs|]. split; [exact Hk|].
  exact (process_create_data_empty_id_gets_uuid
           empty_id_input empty_id_input fresh_world Hs Hk).
Defined.

Lemma generate_id_raises_iff_taken_witness :
  CREATE_SCHEMA front_door = Ok front_door
  ∧ front_door !! TAG_ID = Some (VStr "T-1")
  ∧ "T-1" ≠ ""
  ∧ is_Some (coll_data (tag_data home_world) !! "T-1")
  ∧ fst (generate_id "T-1" home_world) = Raise (TagIDExistsError "T-1")
  ∧ snd (generate_id "T-1" home_world) = home_world
  ∧ fst (async_create_item front_door home_world)
    = Raise (TagIDExistsError "T-1")
  ∧ tag_data (snd (async_create_item front_door home_world))
    = tag_data home_world.
Proof.
  assert (CREATE_SCHEMA front_door = Ok front_door) as Hs
    by (vm_compute; reflexivity).
  assert (front_door !! TAG_ID = Some (VStr "T-1")) as Hk
    by (vm_compute; reflexivity).
  assert ("T-1" ≠ "") as Hne by discriminate.
  assert (is_Some (coll_data (tag_data home_world) !! "T-1")) as Hin
    by (exists front_door; vm_compute; reflexivity).
  destruct (generate_id_raises_iff_taken "T-1" home_world)
    as (Hraise & _ & Hsame & Hcreate).
  repeat (split; [assumption|]).
  split; [exact (proj2 Hraise Hin)|]. split; [exact Hsame|].
  exact (Hcreate front_door front_door Hs Hk Hne Hin).
Defined.

Lemma update_data_merges_patch_witness :
  UPDATE_SCHEMA rename_patch = Ok rename_patch
  ∧ ∃ rec,
      _update_data front_door rename_patch = Ok rec
      ∧ (∀ key v, key ≠ LAST_SCANNED →
           rename_patch !! key = Some v → rec !! key = Some v)
      ∧ (∀ d, rename_patch !! LAST_SCANNED = Some (VDatetime d) →
           rec !! LAST_SCANNED = Some (VStr (isoformat d)))
      ∧ other_fields_kept front_door rename_patch rec.
Proof.
  assert (UPDATE_SCHEMA rename_patch = Ok rename_patch) as Hs
    by (vm_compute; reflexivity).
  split; [exact Hs|].
  exact (update_data_merges_patch front_door rename_patch rename_patch Hs).
Defined.

Lemma update_data_keeps_id_witness :
  UPDATE_SCHEMA rename_patch = Ok rename_patch
  ∧ dom UPDATE_FIELDS = dom CREATE_FIELDS ∖ {[ TAG_ID ]}
  ∧ rename_patch !! TAG_ID = None
  ∧ rename_patch !! CONF_ID = None
  ∧ ∃ rec,
      _update_data front_door rename_patch = Ok rec
      ∧ rec !! TAG_ID = front_door !! TAG_ID
      ∧ rec !! CONF_ID = front_door !! CONF_ID.
Proof.
  assert (UPDATE_SCHEMA rename_patch = Ok rename_patch) as Hs
    by (vm_compute; reflexivity).
  split; [exact Hs|].
  exact (update_data_keeps_id front_door rename_patch rename_patch Hs).
Defined.

Lemma last_scanned_is_stored_as_iso_text_witness :
  given_id_input !! LAST_SCANNED = Some (VDatetime sample_time)
  ∧ is_Some (given_id_input !! TAG_ID)
  ∧ (∃ out, CREATE_SCHEMA given_id_input = Ok out)
  ∧ rename_patch !! LAST_SCANNED = Some (VDatetime sample_time)
  ∧ (∃ out, UPDATE_SCHEMA rename_patch = Ok out)
  ∧ (∃ rec w',
       _process_create_data given_id_input fresh_world = (Ok rec, w')
       ∧ rec !! LAST_SCANNED = Some (VStr (isoformat sample_time)))
  ∧ (∃ rec,
       _update_data front_door rename_patch = Ok rec
       ∧ rec !! LAST_SCANNED = Some (VStr (isoformat sample_time))).
Proof.
  assert (given_id_input !! LAST_SCANNED = Some (VDatetime sample_time))
    as Hd by (vm_compute; reflexivity).
  assert (is_Some (given_id_input !! TAG_ID)) as Hk
    by (exists (VStr "T-2"); vm_compute; reflexivity).
  assert (∃ out, CREATE_SCHEMA given_id_input = Ok out) as Hs
    by (exists given_id_input; vm_compute; reflexivity).
  assert (rename_patch !! LAST_SCANNED = Some (VDatetime sample_time))
    as Hd' by (vm_compute; reflexivity).
  assert (∃ out, UPDATE_SCHEMA rename_patch = Ok out) as Hs'
    by (exists rename_patch; vm_compute; reflexivity).
  destruct (last_scanned_is_stored_as_iso_text given_id_input front_door
              rename_patch sample_time fresh_world) as (Hc & Hu & _).
  repeat (split; [assumption|]).
  split; [exact (Hc Hd Hk Hs) | exact (Hu Hd' Hs')].
Defined.

Lemma scan_before_setup_fails_without_effect_witness :
  (DOMAIN ∉ components cold_world)
  ∧ (let out := async_scan_tag "T-1" (Some "reader") None cold_world in
     fst out
       = Raise (HomeAssistantError "tag component has not been set up.")
     ∧ snd out = cold_world
     ∧ fired (snd out) = fired cold_world
     ∧ journal (snd out) = journal cold_world
     ∧ tag_data (snd out) = tag_data cold_world).
Proof.
  assert (DOMAIN ∉ components cold_world) as Hno
    by (simpl; apply not_elem_of_empty).
  split; [exact Hno|].
  exact (scan_before_setup_fails_without_effect "T-1" (Some "reader") None
           cold_world Hno).
Defined.

Lemma scan_fires_event_before_persisting_witness :
  DOMAIN ∈ components home_world
  ∧ (let out := async_scan_tag "T-1" None None home_world in
     let ev := scan_event "T-1" (VStr "Front Door") None None in
     ∃ call,
       journal (snd out) = [Fired ev; call]
       ∧ (call = CallUpdate "T-1" (scan_patch sample_time None)
          ∨ call = CallCreate (scan_input "T-1" sample_time None))
       ∧ fired (snd out) = [ev]
       ∧ (∀ e, fst out = Raise e →
            ev ∈ fired (snd out) ∧ tag_data (snd out) = tag_data home_world)).
Proof.
  assert (DOMAIN ∈ components home_world) as Hset
    by (simpl; apply elem_of_singleton; reflexivity).
  split; [exact Hset|].
  exact (scan_fires_event_before_persisting "T-1" None None home_world Hset).
Defined.

Lemma scan_known_tag_without_device_raises_witness :
  DOMAIN ∈ components home_world
  ∧ coll_data (tag_data home_world) !! "T-1" = Some front_door
  ∧ fst (async_scan_tag "T-1" None None home_world) = Raise Invalid
  ∧ fired (snd (async_scan_tag "T-1" None None home_world))
    = [scan_event "T-1" (VStr "Front Door") None None]
  ∧ tag_data (snd (async_scan_tag "T-1" None None home_world))
    = tag_data home_world.
Proof.
  assert (DOMAIN ∈ components home_world) as Hset
    by (simpl; apply elem_of_singleton; reflexivity).
  assert (coll_data (tag_data home_world) !! "T-1" = Some front_door)
    as Hrec by (vm_compute; reflexivity).
  split; [exact Hset|]. split; [exact Hrec|].
  exact (scan_known_tag_without_device_raises "T-1" None front_door
           home_world Hset Hrec).
Defined.

Lemma scan_unknown_tag_creates_record_witness :
  DOMAIN ∈ components fresh_world
  ∧ coll_data (tag_data fresh_world) !! "T-9" = None
  ∧ "T-9" ≠ ""
  ∧ ∃ item,
      fst (async_scan_tag "T-9" (Some "reader") None fresh_world) = Ok tt
      ∧ fired (snd (async_scan_tag "T-9" (Some "reader") None fresh_world))
        = [scan_event "T-9" VNone (Some "reader") None]
      ∧ journal (snd (async_scan_tag "T-9" (Some "reader") None fresh_world))
        = [Fired (scan_event "T-9" VNone (Some "reader") None);
           CallCreate (scan_input "T-9" sample_time (Some "reader"))]
      ∧ coll_data (tag_data
          (snd (async_scan_tag "T-9" (Some "reader") None fresh_world)))
        = <["T-9" := item]> ∅
      ∧ item !! TAG_ID = Some (VStr "T-9")
      ∧ item !! LAST_SCANNED = Some (VStr (isoformat sample_time))
      ∧ item !! DEVICE_ID = Some (VStr "reader").
Proof.
  assert (DOMAIN ∈ components fresh_world) as Hset
    by (simpl; apply elem_of_singleton; reflexivity).
  assert (coll_data (tag_data fresh_world) !! "T-9" = None) as Hrec
    by (vm_compute; reflexivity).
  assert ("T-9" ≠ "") as Hne by discriminate.
  split; [exact Hset|]. split; [exact Hrec|]. split; [exact Hne|].
  exact (scan_unknown_tag_creates_record "T-9" "reader" None fresh_world
           Hset Hrec Hne).
Defined.

(** * Further properties of the code *)

(** ** The create hook, case by case *)

Lemma dom_insert_present (data : dict) (key : string) (v w : value) :
  data !! key = Some w → dom (<[key := v]> data) = dom data.
Proof.
  intros Hk. rewrite dom_insert_L. apply subseteq_union_1_L.
  apply singleton_subseteq_l. by apply elem_of_dom_2 in Hk.
Qed.

Lemma dom_serialized (data : dict) : dom (serialized data) = dom data.
Proof.
  unfold serialized. destruct (data !! LAST_SCANNED) as [[]|] eqn:Hl; try done.
  by apply (dom_insert_present _ _ _ (VDatetime d)).
Qed.

Lemma serialized_lookup_last (data : dict) :
  serialized data !! LAST_SCANNED
  = match data !! LAST_SCANNED with
    | Some (VDatetime d) => Some (VStr (isoformat d))
    | o => o
    end.
Proof.
  unfold serialized. destruct (data !! LAST_SCANNED) as [[]|] eqn:Hl; try done.
  apply lookup_insert_eq.
Qed.

(** Serialising a merged patch is merging the serialised patches. *)
Lemma serialized_union (p2 p1 : dict) :
  serialized (p2 ∪ p1) = serialized p2 ∪ serialized p1.
Proof.
  apply map_eq. intros key. destruct (decide (key = LAST_SCANNED)) as [->|Hne].
  - rewrite lookup_union, !serialized_lookup_last, lookup_union.
    by destruct (p2 !! LAST_SCANNED) as [[]|],
      (p1 !! LAST_SCANNED) as [[]|].
  - rewrite lookup_union, !serialized_lookup_ne by done.
    by rewrite lookup_union.
Qed.

(** The four ways a run of [_process_create_data] can go. *)
Lemma process_create_data_cases (data : dict) (w : world) :
  (CREATE_SCHEMA data = Raise Invalid
   ∧ _process_create_data data w = (Raise Invalid, w))
  ∨ (CREATE_SCHEMA data = Ok data ∧ data !! TAG_ID = None
     ∧ _process_create_data data w = (Raise (KeyError TAG_ID), w))
  ∨ (∃ s, CREATE_SCHEMA data = Ok data ∧ data !! TAG_ID = Some (VStr s)
          ∧ s ≠ ""
          ∧ _process_create_data data w = (Ok (serialized data), w))
  ∨ (CREATE_SCHEMA data = Ok data ∧ data !! TAG_ID = Some (VStr "")
     ∧ _process_create_data data w
       = (Ok (serialized (<[TAG_ID := VStr (next_uuid w)]> data)),
          snd (uuid4 w))).
Proof.
  destruct (Schema_result CREATE_FIELDS data) as [Hs|Hs];
    fold (CREATE_SCHEMA data) in Hs.
  2: { left. split; [done|].
       unfold _process_create_data, bind, lift. by rewrite Hs. }
  right. pose proof (CREATE_SCHEMA_Ok_id _ _ Hs) as Hid. rewrite Hid in Hs.
  clear Hid.
  destruct (data !! TAG_ID) as [v|] eqn:Hk.
  2: { left. eauto using process_create_data_missing_id. }
  right. destruct (CREATE_SCHEMA_tag_id _ _ _ Hs Hk) as [s ->].
  destruct (decide (s = "")) as [->|Hne].
  - right. eauto using process_create_data_empty_id.
  - left. exists s. eauto using process_create_data_given_id.
Qed.

(** X1.  Whenever [_process_create_data] returns a record, the record's
    [tag_id] is a non-empty string which [_get_suggested_id] reads back:
    either the id the input gave, with no random draw made, or, for an
    input whose id was the empty string, the UUID of the one draw made. *)
Theorem created_id_is_given_or_generated
    (data rec : dict) (w w' : world) :
  _process_create_data data w = (Ok rec, w') →
  ∃ s,
    rec !! TAG_ID = Some (VStr s)
    ∧ s ≠ ""
    ∧ _get_suggested_id rec = Ok s
    ∧ ((data !! TAG_ID = Some (VStr s) ∧ w' = w)
       ∨ (data !! TAG_ID = Some (VStr "") ∧ s = next_uuid w
          ∧ drawn w' = S (drawn w))).
Proof.
  intros Hrun.
  destruct (process_create_data_cases data w)
    as [[_ Hr]|[(_ & _ & Hr)|[(s & _ & Hk & Hne & Hr)|(_ & Hk & Hr)]]];
    rewrite Hr in Hrun; simplify_eq.
  - assert (serialized data !! TAG_ID = Some (VStr s)) as Hid
      by by rewrite serialized_lookup_ne.
    exists s. split; [done|]. split; [done|].
    split; [|by left].
    unfold _get_suggested_id, rbind, getitem. by rewrite Hid.
  - assert (serialized (<[TAG_ID := VStr (next_uuid w)]> data) !! TAG_ID
            = Some (VStr (next_uuid w))) as Hid.
    { rewrite serialized_lookup_ne by done. apply lookup_insert_eq. }
    exists (next_uuid w). split; [done|].
    split; [apply uuid4_str_nonempty|].
    split; [|by right].
    unfold _get_suggested_id, rbind, getitem. by rewrite Hid.
Qed.

(** X2.  A record returned by [_process_create_data] has exactly the
    fields of the input, all of them fields of the create schema: nothing
    is added, not even by the UUID branch, and nothing is dropped. *)
Theorem created_record_has_input_fields
    (data rec : dict) (w w' : world) :
  _process_create_data data w = (Ok rec, w') →
  dom rec = dom data ∧ dom rec ⊆ dom CREATE_FIELDS.
Proof.
  intros Hrun.
  assert (CREATE_SCHEMA data = Ok data ∧ dom rec = dom data) as [Hs Hdom].
  { destruct (process_create_data_cases data w)
      as [[_ Hr]|[(_ & _ & Hr)|[(s & Hs & Hk & Hne & Hr)|(Hs & Hk & Hr)]]];
      rewrite Hr in Hrun; simplify_eq.
    - split; [done|]. apply dom_serialized.
    - split; [done|]. rewrite dom_serialized.
      by apply (dom_insert_present _ _ _ (VStr "")). }
  split; [done|]. rewrite Hdom. intros key [v Hv]%elem_of_dom.
  destruct (Schema_Ok_entry _ _ _ _ _ Hs Hv) as (f & _ & Hf & _).
  by apply elem_of_dom_2 in Hf.
Qed.

(** X3.  [_process_create_data] raises only two exceptions, and makes no
    random draw when it raises: the schema's [Invalid], for an input the
    create schema refuses, and [KeyError] on [tag_id], for an accepted
    input that has no [tag_id] key.  The [isoformat] call never fails. *)
Theorem process_create_data_errors
    (data : dict) (e : error) (w w' : world) :
  _process_create_data data w = (Raise e, w') →
  w' = w
  ∧ ((e = Invalid ∧ CREATE_SCHEMA data = Raise Invalid)
     ∨ (e = KeyError TAG_ID ∧ accepts CREATE_SCHEMA data
        ∧ data !! TAG_ID = None)).
Proof.
  intros Hrun.
  destruct (process_create_data_cases data w)
    as [[Hs Hr]|[(Hs & Hk & Hr)|[(s & _ & _ & _ & Hr)|(_ & _ & Hr)]]];
    rewrite Hr in Hrun; simplify_eq.
  - split; [done|]. by left.
  - split; [done|]. right. split; [done|]. split; [by exists data|done].
Qed.

(** ** What the schemas let through *)

Lemma vol_All_name_Ok (v v' : value) :
  vol_All [vol_str; vol_Length_min 1] v = Ok v' → ∃ s, v = VStr s ∧ s ≠ "".
Proof.
  destruct v as [|s|d|l]; simpl; try done.
  case_decide as Hlen; [done|]. intros _. exists s. split; [done|].
  intros ->. simpl in Hlen. lia.
Qed.

Lemma CREATE_SCHEMA_name (data out : dict) (v : value) :
  CREATE_SCHEMA data = Ok out → data !! CONF_NAME = Some v →
  ∃ s, v = VStr s ∧ s ≠ "".
Proof.
  intros Hs Hk.
  destruct (Schema_Ok_entry _ _ _ _ _ Hs Hk) as (f & v' & Hf & Hv & _).
  unfold CREATE_FIELDS in Hf.
  rewrite lookup_insert_ne, lookup_insert_eq in Hf by done.
  simplify_eq. eauto using vol_All_name_Ok.
Qed.

Lemma UPDATE_SCHEMA_name (data out : dict) (v : value) :
  UPDATE_SCHEMA data = Ok out → data !! CONF_NAME = Some v →
  ∃ s, v = VStr s ∧ s ≠ "".
Proof.
  intros Hs Hk.
  destruct (Schema_Ok_entry _ _ _ _ _ Hs Hk) as (f & v' & Hf & Hv & _).
  unfold UPDATE_FIELDS in Hf. rewrite lookup_insert_eq in Hf.
  simplify_eq. eauto using vol_All_name_Ok.
Qed.

(** What a successful [_update_data] tells about its patch. *)
Lemma update_data_Ok_inv (item patch rec : dict) :
  _update_data item patch = Ok rec →
  UPDATE_SCHEMA patch = Ok patch ∧ rec = serialized patch ∪ item.
Proof.
  intros Hrun.
  destruct (Schema_result UPDATE_FIELDS patch) as [Hs|Hs];
    fold (UPDATE_SCHEMA patch) in Hs.
  - pose proof (UPDATE_SCHEMA_Ok_id _ _ Hs) as Hid. rewrite Hid in Hs.
    rewrite (update_data_accepted _ _ _ Hs) in Hrun. by simplify_eq.
  - by rewrite (update_data_rejected _ _ Hs) in Hrun.
Qed.

(** The validated value of an entry under the update fields is its value
    under the create fields, except for [tag_id], which is no update
    field. *)
Lemma validate_entry_update (key : string) (v : value) :
  validate_entry UPDATE_FIELDS key v
  = if decide (key = TAG_ID) then None
    else validate_entry CREATE_FIELDS key v.
Proof.
  unfold validate_entry, CREATE_FIELDS. case_decide as Hk.
  - by subst key.
  - by rewrite (lookup_insert_ne _ TAG_ID key).
Qed.

Lemma Schema_accepts (fs : fields) (data : dict) :
  accepts (Schema fs) data
  ↔ ∀ key v, data !! key = Some v → is_Some (validate_entry fs key v).
Proof.
  unfold accepts, Schema. split.
  - intros [out Hs]. by case_decide.
  - intros Hall. rewrite decide_True by done. eauto.
Qed.

(** X4.  The name of a record is never set to an empty or non-string
    value: when [_process_create_data] or [_update_data] returns a record
    for an input that names [name], that name is a non-empty string and
    the record carries it. *)
Theorem accepted_name_is_nonempty
    (data item patch rec rec' : dict) (v : value) (w w' : world) :
  (_process_create_data data w = (Ok rec, w') →
   data !! CONF_NAME = Some v →
   ∃ s, v = VStr s ∧ s ≠ "" ∧ rec !! CONF_NAME = Some (VStr s))
  ∧ (_update_data item patch = Ok rec' →
     patch !! CONF_NAME = Some v →
     ∃ s, v = VStr s ∧ s ≠ "" ∧ rec' !! CONF_NAME = Some (VStr s)).
Proof.
  split.
  - intros Hrun Hk.
    destruct (process_create_data_cases data w)
      as [[_ Hr]|[(_ & _ & Hr)|[(s0 & Hs & _ & _ & Hr)|(Hs & _ & Hr)]]];
      rewrite Hr in Hrun; simplify_eq;
      destruct (CREATE_SCHEMA_name _ _ _ Hs Hk) as (s & -> & Hne);
      exists s; (split; [done|]); (split; [done|]);
      rewrite serialized_lookup_ne by done; [done|].
    by rewrite lookup_insert_ne.
  - intros Hrun Hk. destruct (update_data_Ok_inv _ _ _ Hrun) as [Hs ->].
    destruct (UPDATE_SCHEMA_name _ _ _ Hs Hk) as (s & -> & Hne).
    exists s. split; [done|]. split; [done|].
    apply lookup_union_Some_l. by rewrite serialized_lookup_ne.
Qed.

(** X5.  Extra keys are not allowed: an input with a key that is no field
    of the create schema makes [_process_create_data] raise [Invalid]
    before any random draw, and a patch with a key that is no field of the
    update schema makes [_update_data] raise [Invalid]. *)
Theorem unknown_field_is_refused
    (data item patch : dict) (key : string) (w : world) :
  (key ∉ dom CREATE_FIELDS → is_Some (data !! key) →
   _process_create_data data w = (Raise Invalid, w))
  ∧ (key ∉ dom UPDATE_FIELDS → is_Some (patch !! key) →
     _update_data item patch = Raise Invalid).
Proof.
  split.
  - intros Hno%not_elem_of_dom Hk.
    pose proof (Schema_unknown_key CREATE_FIELDS data key Hno Hk) as Hs.
    unfold _process_create_data, bind, lift, CREATE_SCHEMA. by rewrite Hs.
  - intros Hno%not_elem_of_dom Hk. apply update_data_rejected.
    by apply (Schema_unknown_key UPDATE_FIELDS patch key).
Qed.

(** X6.  The update fields are the create fields without [tag_id],
    validators included; so the update schema accepts exactly the inputs
    that the create schema accepts and that name no [tag_id]. *)
Theorem update_schema_is_create_schema_less_id (patch : dict) :
  UPDATE_FIELDS = delete TAG_ID CREATE_FIELDS
  ∧ (accepts UPDATE_SCHEMA patch
     ↔ accepts CREATE_SCHEMA patch ∧ patch !! TAG_ID = None).
Proof.
  split.
  - unfold CREATE_FIELDS. rewrite delete_insert_id; done.
  - unfold UPDATE_SCHEMA, CREATE_SCHEMA. rewrite !Schema_accepts. split.
    + intros Hall. split.
      * intros key v Hk. specialize (Hall key v Hk).
        rewrite validate_entry_update in Hall.
        case_decide; [by destruct Hall|done].
      * destruct (patch !! TAG_ID) as [v|] eqn:Hk; [|done].
        specialize (Hall TAG_ID v Hk). rewrite validate_entry_update in Hall.
        rewrite decide_True in Hall by done. by destruct Hall.
    + intros [Hall Hno] key v Hk. rewrite validate_entry_update.
      case_decide as Hkey; [|by apply Hall]. subst key. congruence.
Qed.

(** ** How updates compose *)

Lemma Schema_accepts_union (fs : fields) (p2 p1 : dict) :
  accepts (Schema fs) p2 → accepts (Schema fs) p1 →
  accepts (Schema fs) (p2 ∪ p1).
Proof.
  rewrite !Schema_accepts. intros H2 H1 key v Hk.
  apply lookup_union_Some_raw in Hk as [Hk|[_ Hk]]; eauto.
Qed.

Lemma update_data_accepts (item patch : dict) :
  accepts UPDATE_SCHEMA patch →
  _update_data item patch = Ok (serialized patch ∪ item).
Proof. intros [out Hs]. by apply (update_data_accepted _ _ out). Qed.

(** X7.  An update with the empty patch returns the record as it is, and
    an update that succeeded changes nothing when it is applied a second
    time to its own result. *)
Theorem update_data_idempotent (item patch rec : dict) :
  _update_data item ∅ = Ok item
  ∧ (_update_data item patch = Ok rec → _update_data rec patch = Ok rec).
Proof.
  split.
  - rewrite update_data_accepts.
    + unfold serialized. rewrite lookup_empty. by rewrite (left_id ∅ (∪)).
    + apply Schema_accepts. intros key v Hk. by rewrite lookup_empty in Hk.
  - intros Hrun. destruct (update_data_Ok_inv _ _ _ Hrun) as [Hs ->].
    rewrite (update_data_accepted _ _ _ Hs). f_equal.
    by rewrite (assoc_L (∪)), (idemp_L (∪)).
Qed.

(** X8.  Two updates in a row are one update with the merged patch: the
    record reached by applying [p1] and then [p2] is the record
    [_update_data] returns for the patch [{**p1, **p2}], which the update
    schema accepts. *)
Theorem update_data_composes (item p1 p2 r1 r2 : dict) :
  _update_data item p1 = Ok r1 →
  _update_data r1 p2 = Ok r2 →
  _update_data item (p2 ∪ p1) = Ok r2.
Proof.
  intros Hrun1 Hrun2.
  destruct (update_data_Ok_inv _ _ _ Hrun1) as [Hs1 ->].
  destruct (update_data_Ok_inv _ _ _ Hrun2) as [Hs2 ->].
  rewrite update_data_accepts.
  - by rewrite serialized_union, (assoc_L (∪)).
  - apply Schema_accepts_union; by eexists.
Qed.

(** X9.  An update never removes a field: the record [_update_data]
    returns has the fields of the existing record and those of the patch,
    and no others. *)
Theorem update_data_fields (item patch rec : dict) :
  _update_data item patch = Ok rec →
  dom rec = dom patch ∪ dom item.
Proof.
  intros Hrun. destruct (update_data_Ok_inv _ _ _ Hrun) as [_ ->].
  by rewrite dom_union_L, dom_serialized.
Qed.

(** X10.  The only exception [_update_data] raises is the update schema's
    [Invalid], and it raises it exactly for the patches the schema
    refuses, whatever the existing record is: the [isoformat] call and the
    subscript [data[LAST_SCANNED]] never fail. *)
Theorem update_data_errors (item patch : dict) (e : error) :
  (_update_data item patch = Raise e →
   e = Invalid ∧ ¬ accepts UPDATE_SCHEMA patch)
  ∧ (¬ accepts UPDATE_SCHEMA patch → _update_data item patch = Raise Invalid).
Proof.
  split.
  - intros Hrun.
    destruct (Schema_result UPDATE_FIELDS patch) as [Hs|Hs];
      fold (UPDATE_SCHEMA patch) in Hs.
    + by rewrite (update_data_accepted _ _ _ Hs) in Hrun.
    + rewrite (update_data_rejected _ _ Hs) in Hrun. simplify_eq.
      split; [done|]. intros [out Hout]. congruence.
  - intros Hno.
    destruct (Schema_result UPDATE_FIELDS patch) as [Hs|Hs];
      fold (UPDATE_SCHEMA patch) in Hs.
    + destruct Hno. by eexists.
    + by apply update_data_rejected.
Qed.

(** ** The scan handler, path by path *)

Lemma CREATE_SCHEMA_scan_input_no_device (tag_id : string) (now : datetime) :
  CREATE_SCHEMA (scan_input tag_id now None) = Raise Invalid.
Proof.
  unfold CREATE_SCHEMA, Schema. rewrite decide_False; [done|].
  intros Hall. destruct (Hall DEVICE_ID VNone) as [v Hv]; [done|].
  by vm_compute in Hv.
Qed.

(** Known tag, device with an id: the update goes through. *)
Lemma scan_known_run_device (tag_id d : string)
    (context : option hass_context) (rec : dict) (w : world) :
  DOMAIN ∈ components w →
  coll_data (tag_data w) !! tag_id = Some rec →
  let rec' := <[LAST_SCANNED := VStr (isoformat (clock w))]>
              (<[DEVICE_ID := VStr d]> rec) in
  async_scan_tag tag_id (Some d) context w =
    (Ok tt,
     stored tag_id rec' (Updated tag_id rec rec')
       (recorded (CallUpdate tag_id (scan_patch (clock w) (Some d)))
          (recorded
             (Fired (scan_event tag_id (dict_get rec CONF_NAME) (Some d)
                       context)) w))).
Proof.
  intros Hset Hrec rec'. rewrite (scan_known _ _ _ _ _ Hset Hrec).
  rewrite (async_update_item_run _ _ rec) by done.
  by rewrite update_data_scan_patch.
Qed.

(** Known tag, no device id: the update schema refuses the patch. *)
Lemma scan_known_run_no_device (tag_id : string)
    (context : option hass_context) (rec : dict) (w : world) :
  DOMAIN ∈ components w →
  coll_data (tag_data w) !! tag_id = Some rec →
  async_scan_tag tag_id None context w =
    (Raise Invalid,
     recorded (CallUpdate tag_id (scan_patch (clock w) None))
       (recorded
          (Fired (scan_event tag_id (dict_get rec CONF_NAME) None context))
          w)).
Proof.
  intros Hset Hrec. rewrite (scan_known _ _ _ _ _ Hset Hrec).
  rewrite (async_update_item_run _ _ rec) by done.
  by rewrite (update_data_rejected _ _
                (UPDATE_SCHEMA_scan_patch_no_device _)).
Qed.

(** Unknown tag, no device id: the create schema refuses the input. *)
Lemma scan_unknown_run_no_device (tag_id : string)
    (context : option hass_context) (w : world) :
  DOMAIN ∈ components w →
  coll_data (tag_data w) !! tag_id = None →
  async_scan_tag tag_id None context w =
    (Raise Invalid,
     recorded (CallCreate (scan_input tag_id (clock w) None))
       (recorded (Fired (scan_event tag_id VNone None context)) w)).
Proof.
  intros Hset Hrec. rewrite (scan_unknown _ _ _ _ Hset Hrec).
  rewrite async_create_item_run.
  unfold _process_create_data. unfold bind at 1, lift at 1.
  by rewrite CREATE_SCHEMA_scan_input_no_device.
Qed.

(** Unknown non-empty tag, device with an id: the record is created under
    the scanned id. *)
Lemma scan_unknown_run_device (tag_id d : string)
    (context : option hass_context) (w : world) :
  DOMAIN ∈ components w →
  coll_data (tag_data w) !! tag_id = None →
  tag_id ≠ "" →
  let item := serialized (scan_input tag_id (clock w) (Some d)) in
  async_scan_tag tag_id (Some d) context w =
    (Ok tt,
     stored tag_id item (Added tag_id item)
       (recorded (CallCreate (scan_input tag_id (clock w) (Some d)))
          (recorded (Fired (scan_event tag_id VNone (Some d) context)) w))).
Proof.
  intros Hset Hrec Hne item. rewrite (scan_unknown _ _ _ _ Hset Hrec).
  pose proof (CREATE_SCHEMA_scan_input tag_id (clock w) d) as Hs.
  assert (scan_input tag_id (clock w) (Some d) !! TAG_ID
          = Some (VStr tag_id)) as Hk by done.
  rewrite async_create_item_run.
  rewrite (process_create_data_given_id _ _ _ _ Hs Hk Hne).
  unfold _get_suggested_id, rbind, getitem.
  rewrite serialized_lookup_ne by done. rewrite Hk.
  rewrite bool_decide_eq_false_2; [done|].
  rewrite !tag_data_recorded, Hrec. by intros [? ?].
Qed.

(** The empty tag id, device with an id: the record is created under the
    next UUID, unless that UUID is taken. *)
Lemma scan_empty_run_device (d : string) (context : option hass_context)
    (w : world) :
  DOMAIN ∈ components w →
  coll_data (tag_data w) !! "" = None →
  let item := serialized (<[TAG_ID := VStr (next_uuid w)]>
                            (scan_input "" (clock w) (Some d))) in
  let w2 := snd (uuid4
                   (recorded (CallCreate (scan_input "" (clock w) (Some d)))
                      (recorded
                         (Fired (scan_event "" VNone (Some d) context)) w)))
  in
  async_scan_tag "" (Some d) context w =
    if bool_decide (is_Some (coll_data (tag_data w) !! next_uuid w))
    then (Raise (TagIDExistsError (next_uuid w)), w2)
    else (Ok tt, stored (next_uuid w) item (Added (next_uuid w) item) w2).
Proof.
  intros Hset Hrec item w2. rewrite (scan_unknown _ _ _ _ Hset Hrec).
  pose proof (CREATE_SCHEMA_scan_input "" (clock w) d) as Hs.
  assert (scan_input "" (clock w) (Some d) !! TAG_ID = Some (VStr ""))
    as Hk by done.
  rewrite async_create_item_run.
  rewrite (process_create_data_empty_id _ _ _ Hs Hk).
  unfold _get_suggested_id, rbind, getitem.
  rewrite serialized_lookup_ne by done. rewrite lookup_insert_eq.
  change (tag_data (snd (uuid4 ?w0))) with (tag_data w0).
  rewrite !tag_data_recorded.
  change (uuid4_str (urandom (recorded ?a (recorded ?b w))
                       (drawn (recorded ?a (recorded ?b w)))))
    with (next_uuid w).
  by case_bool_decide.
Qed.

Lemma coll_data_stored (item_id : string) (item : dict) (c : change)
    (w : world) :
  coll_data (tag_data (stored item_id item c w))
  = <[item_id := item]> (coll_data (tag_data w)).
Proof. done. Qed.

Lemma tag_data_uuid4 (w : world) : tag_data (snd (uuid4 w)) = tag_data w.
Proof. done. Qed.

(** Reading the collection of a world reached by a scan. *)
Ltac read_collection :=
  cbn [fst snd];
  rewrite ?coll_data_stored, ?tag_data_uuid4, ?tag_data_recorded.

(** Every way a scan in a set-up system can end: with an exception and the
    collection as it was, or with one record put, under the scanned id
    (updated, its id kept, or new) or under the next UUID (new, for the
    empty tag id). *)
Lemma scan_outcome (tag_id : string) (device_id : option string)
    (context : option hass_context) (w : world) :
  DOMAIN ∈ components w →
  let out := async_scan_tag tag_id device_id context w in
  (∃ e, fst out = Raise e ∧ tag_data (snd out) = tag_data w)
  ∨ (∃ key rec,
       fst out = Ok tt
       ∧ coll_data (tag_data (snd out))
         = <[key := rec]> (coll_data (tag_data w))
       ∧ ((∃ old, key = tag_id
                  ∧ coll_data (tag_data w) !! tag_id = Some old
                  ∧ rec !! TAG_ID = old !! TAG_ID)
          ∨ (coll_data (tag_data w) !! tag_id = None
             ∧ coll_data (tag_data w) !! key = None
             ∧ rec !! TAG_ID = Some (VStr key)
             ∧ key ≠ ""
             ∧ (key = tag_id ∨ (tag_id = "" ∧ key = next_uuid w))))).
Proof.
  intros Hset out. subst out.
  destruct (coll_data (tag_data w) !! tag_id) as [old|] eqn:Hrec.
  - destruct device_id as [d|].
    + right. rewrite (scan_known_run_device _ _ _ _ _ Hset Hrec).
      eexists tag_id, _. split; [done|]. split; [by read_collection|].
      left. exists old. split; [done|]. split; [done|].
      by rewrite !lookup_insert_ne by done.
    + left. rewrite (scan_known_run_no_device _ _ _ _ Hset Hrec).
      by exists Invalid.
  - destruct device_id as [d|].
    2: { left. rewrite (scan_unknown_run_no_device _ _ _ Hset Hrec).
         by exists Invalid. }
    destruct (decide (tag_id = "")) as [->|Hne].
    + rewrite (scan_empty_run_device _ _ _ Hset Hrec).
      case_bool_decide as Htaken.
      * left. by eexists.
      * right. eexists (next_uuid w), _. split; [done|].
        split; [by read_collection|]. right.
        split; [done|]. split; [by apply eq_None_not_Some|].
        split; [|split; [apply uuid4_str_nonempty|by right]].
        rewrite serialized_lookup_ne by done. apply lookup_insert_eq.
    + right. rewrite (scan_unknown_run_device _ _ _ _ Hset Hrec Hne).
      eexists tag_id, _. split; [done|]. split; [by read_collection|].
      right. split; [done|]. split; [done|].
      split; [by rewrite serialized_lookup_ne|]. split; [done|by left].
Qed.

Lemma scan_not_set_up_run (tag_id : string) (device_id : option string)
    (context : option hass_context) (w : world) :
  DOMAIN ∉ components w →
  async_scan_tag tag_id device_id context w =
    (Raise (HomeAssistantError "tag component has not been set up."), w).
Proof.
  intros Hno. unfold async_scan_tag. unfold bind at 1, gets at 1.
  by rewrite decide_True.
Qed.

(** ** What a scan does to the collection *)

(** X11.  A scan of a known tag by a device that has an id returns
    normally.  It fires the event with the record's name, then calls the
    update, and the record under the scanned id becomes the old record
    with [last_scanned] set to the ISO-8601 text of the call time and
    [device_id] set to the device: every other field of the record, and
    every other record, is as before. *)
Theorem scan_known_tag_updates_record
    (tag_id d : string) (context : option hass_context) (rec : dict)
    (w : world) :
  DOMAIN ∈ components w →
  coll_data (tag_data w) !! tag_id = Some rec →
  let out := async_scan_tag tag_id (Some d) context w in
  ∃ rec',
    fst out = Ok tt
    ∧ journal (snd out)
      = (journal w
         ++ [Fired (scan_event tag_id (dict_get rec CONF_NAME) (Some d)
                      context);
             CallUpdate tag_id (scan_patch (clock w) (Some d))])%list
    ∧ coll_data (tag_data (snd out))
      = <[tag_id := rec']> (coll_data (tag_data w))
    ∧ rec' !! LAST_SCANNED = Some (VStr (isoformat (clock w)))
    ∧ rec' !! DEVICE_ID = Some (VStr d)
    ∧ (∀ key, key ≠ LAST_SCANNED → key ≠ DEVICE_ID →
         rec' !! key = rec !! key).
Proof.
  intros Hset Hrec out.
  exists (<[LAST_SCANNED := VStr (isoformat (clock w))]>
          (<[DEVICE_ID := VStr d]> rec)).
  subst out. rewrite (scan_known_run_device _ _ _ _ _ Hset Hrec).
  split; [done|]. split; [simpl; by rewrite <- app_assoc|].
  split; [by read_collection|].
  split; [apply lookup_insert_eq|].
  split; [by rewrite lookup_insert_ne, lookup_insert_eq|].
  intros key Hl Hd. by rewrite !lookup_insert_ne.
Qed.

(** X12.  A scan touches at most one record: whatever the tag, the device
    and the state of the system, every record stored under a key other
    than the scanned id and the next UUID is after the scan what it was
    before. *)
Theorem scan_leaves_other_records
    (tag_id : string) (device_id : option string)
    (context : option hass_context) (w : world) (key : string) :
  key ≠ tag_id →
  key ≠ next_uuid w →
  coll_data (tag_data (snd (async_scan_tag tag_id device_id context w)))
    !! key
  = coll_data (tag_data w) !! key.
Proof.
  intros Htag Huuid.
  destruct (decide (DOMAIN ∈ components w)) as [Hset|Hno].
  2: { by rewrite (scan_not_set_up_run _ _ _ _ Hno). }
  destruct (scan_outcome tag_id device_id context w Hset)
    as [(e & _ & ->)|(k & rec & _ & -> & Hkey)]; [done|].
  apply lookup_insert_ne.
  destruct Hkey as [(old & -> & _)|(_ & _ & _ & _ & [->|[_ ->]])]; done.
Qed.

(** X13.  Scans keep keys and ids in step: if every record of the
    collection is stored under its own non-empty [tag_id], the same holds
    after a scan, whatever the tag (the empty one included), the device and
    the outcome. *)
Theorem scan_keeps_ids_consistent
    (tag_id : string) (device_id : option string)
    (context : option hass_context) (w : world) :
  ids_consistent (coll_data (tag_data w)) →
  ids_consistent
    (coll_data (tag_data (snd (async_scan_tag tag_id device_id context w)))).
Proof.
  intros Hinv.
  destruct (decide (DOMAIN ∈ components w)) as [Hset|Hno].
  2: { by rewrite (scan_not_set_up_run _ _ _ _ Hno). }
  destruct (scan_outcome tag_id device_id context w Hset)
    as [(e & _ & ->)|(k & rec & _ & -> & Hkey)]; [done|].
  intros key rec' Hlook.
  destruct (decide (k = key)) as [->|Hne].
  2: { rewrite lookup_insert_ne in Hlook by done. by apply Hinv. }
  rewrite lookup_insert_eq in Hlook. simplify_eq.
  destruct Hkey as [(old & -> & Hold & Hid)|(_ & _ & Hid & Hne & _)]; [|done].
  rewrite Hid. by apply Hinv.
Qed.


(** X15.  A scan of an unknown tag by a caller without a device id fires
    the event and then fails: the create schema refuses
    [{tag_id, last_scanned, device_id: None}] before any id is looked at,
    so the handler raises [Invalid] for every tag id, no record is created
    and no random draw is made. *)
Theorem scan_unknown_tag_without_device_raises
    (tag_id : string) (context : option hass_context) (w : world) :
  DOMAIN ∈ components w →
  coll_data (tag_data w) !! tag_id = None →
  let out := async_scan_tag tag_id None context w in
  fst out = Raise Invalid
  ∧ fired (snd out)
    = (fired w ++ [scan_event tag_id VNone None context])%list
  ∧ tag_data (snd out) = tag_data w
  ∧ drawn (snd out) = drawn w.
Proof.
  intros Hset Hrec out. subst out.
  rewrite (scan_unknown_run_no_device _ _ _ Hset Hrec).
  split; [done|]. split; [|done].
  unfold fired. simpl. by rewrite <- app_assoc, omap_app.
Qed.

(** X16.  A scan of the empty tag id (not a key of the collection) by a
    device that has an id never stores anything under the empty id.  It
    makes one random draw; if the UUID drawn is free the handler returns
    normally and the new record is stored under that UUID and carries it
    as [tag_id], and if it is taken the handler raises [TagIDExistsError]
    for it and the collection is as it was. *)
Theorem scan_of_empty_tag_id_uses_uuid
    (d : string) (context : option hass_context) (w : world) :
  DOMAIN ∈ components w →
  coll_data (tag_data w) !! "" = None →
  let out := async_scan_tag "" (Some d) context w in
  drawn (snd out) = S (drawn w)
  ∧ coll_data (tag_data (snd out)) !! "" = None
  ∧ (coll_data (tag_data w) !! next_uuid w = None →
     ∃ item,
       fst out = Ok tt
       ∧ coll_data (tag_data (snd out))
         = <[next_uuid w := item]> (coll_data (tag_data w))
       ∧ item !! TAG_ID = Some (VStr (next_uuid w)))
  ∧ (is_Some (coll_data (tag_data w) !! next_uuid w) →
     fst out = Raise (TagIDExistsError (next_uuid w))
     ∧ tag_data (snd out) = tag_data w).
Proof.
  intros Hset Hrec out. subst out.
  rewrite (scan_empty_run_device _ _ _ Hset Hrec).
  pose proof (uuid4_str_nonempty (urandom w (drawn w))) as Hu.
  fold (next_uuid w) in Hu.
  case_bool_decide as Htaken.
  - split; [done|]. split; [by read_collection|].
    split; [|done]. intros Hfree. rewrite Hfree in Htaken. by destruct Htaken.
  - split; [done|].
    split; [read_collection; by rewrite lookup_insert_ne|].
    split; [|done]. intros _. eexists. split; [done|].
    split; [by read_collection|].
    rewrite serialized_lookup_ne by done. apply lookup_insert_eq.
Qed.

(** X17.  A tag that has been scanned is known: after a scan of a
    non-empty tag id that returned normally, the id is a key of the
    collection, so [generate_id] refuses it with [TagIDExistsError]. *)
Theorem scanned_tag_is_taken
    (tag_id : string) (device_id : option string)
    (context : option hass_context) (w : world) :
  tag_id ≠ "" →
  fst (async_scan_tag tag_id device_id context w) = Ok tt →
  let w' := snd (async_scan_tag tag_id device_id context w) in
  is_Some (coll_data (tag_data w') !! tag_id)
  ∧ fst (generate_id tag_id w') = Raise (TagIDExistsError tag_id).
Proof.
  intros Hne Hok w'. subst w'.
  assert (is_Some (coll_data (tag_data
            (snd (async_scan_tag tag_id device_id context w))) !! tag_id))
    as Hin.
  { destruct (decide (DOMAIN ∈ components w)) as [Hset|Hno].
    2: { by rewrite (scan_not_set_up_run _ _ _ _ Hno) in Hok. }
    destruct (scan_outcome tag_id device_id context w Hset)
      as [(e & He & _)|(k & rec & _ & -> & Hkey)]; [congruence|].
    assert (k = tag_id) as ->.
    { destruct Hkey as [(old & -> & _)|(_ & _ & _ & _ & [->|[-> _]])];
        done. }
    rewrite lookup_insert_eq. by eexists. }
  split; [done|]. rewrite generate_id_run. simpl.
  by rewrite bool_decide_eq_true_2.
Qed.

(** ** Scans after creates, and scans in sequence *)

(** A create with a fresh non-empty id that the schema accepts. *)
Lemma async_create_item_given_id_run (data out : dict) (s : string)
    (w : world) :
  CREATE_SCHEMA data = Ok out →
  data !! TAG_ID = Some (VStr s) →
  s ≠ "" →
  coll_data (tag_data w) !! s = None →
  async_create_item data w =
    (Ok (serialized data),
     stored s (serialized data) (Added s (serialized data))
       (recorded (CallCreate data) w)).
Proof.
  intros Hs Hk Hne Hfree. rewrite async_create_item_run.
  rewrite (process_create_data_given_id _ _ _ _ Hs Hk Hne).
  unfold _get_suggested_id, rbind, getitem.
  rewrite serialized_lookup_ne by done. rewrite Hk.
  rewrite bool_decide_eq_false_2; [done|].
  rewrite tag_data_recorded, Hfree. by intros [? ?].
Qed.

(** X18.  A tag created with a name is announced with that name: after
    the collection has created a record from an accepted input with a
    fresh non-empty id and a name, a scan of that id by a device that has
    an id returns normally, the one event it fires carries the name, and
    the updated record still has it. *)
Theorem created_name_is_in_scan_event
    (data validated : dict) (s n d : string)
    (context : option hass_context) (w : world) :
  DOMAIN ∈ components w →
  CREATE_SCHEMA data = Ok validated →
  data !! TAG_ID = Some (VStr s) →
  s ≠ "" →
  data !! CONF_NAME = Some (VStr n) →
  coll_data (tag_data w) !! s = None →
  let w1 := snd (async_create_item data w) in
  let out := async_scan_tag s (Some d) context w1 in
  ∃ rec,
    fst out = Ok tt
    ∧ fired (snd out)
      = (fired w ++ [scan_event s (VStr n) (Some d) context])%list
    ∧ coll_data (tag_data (snd out)) !! s = Some rec
    ∧ rec !! CONF_NAME = Some (VStr n)
    ∧ rec !! TAG_ID = Some (VStr s).
Proof.
  intros Hset Hs Hk Hne Hn Hfree w1 out. subst out w1.
  rewrite (async_create_item_given_id_run _ _ _ _ Hs Hk Hne Hfree).
  set (w1 := stored s _ _ _). simpl snd.
  assert (DOMAIN ∈ components w1) as Hset1 by done.
  assert (coll_data (tag_data w1) !! s = Some (serialized data)) as Hrec1.
  { subst w1. read_collection. apply lookup_insert_eq. }
  assert (dict_get (serialized data) CONF_NAME = VStr n) as Hname.
  { unfold dict_get. by rewrite serialized_lookup_ne, Hn. }
  rewrite (scan_known_run_device _ d context _ _ Hset1 Hrec1), Hname.
  eexists. split; [done|]. split; [|split; [|split]].
  - unfold fired. simpl. by rewrite <- !app_assoc, !omap_app.
  - read_collection. apply lookup_insert_eq.
  - by rewrite !lookup_insert_ne, serialized_lookup_ne.
  - by rewrite !lookup_insert_ne, serialized_lookup_ne.
Qed.

Lemma components_async_update_item (item_id : string) (updates : dict)
    (w : world) :
  components (snd (async_update_item item_id updates w)) = components w.
Proof.
  destruct (coll_data (tag_data w) !! item_id) as [current|] eqn:Hcur.
  - rewrite (async_update_item_run _ _ _ _ Hcur).
    by destruct (_update_data current updates).
  - by rewrite (async_update_item_missing _ _ _ Hcur).
Qed.

Lemma components_async_create_item (data : dict) (w : world) :
  components (snd (async_create_item data w)) = components w.
Proof.
  rewrite async_create_item_run.
  pose proof (process_create_data_frame data (recorded (CallCreate data) w))
    as (Hc & _).
  destruct (_process_create_data data (recorded (CallCreate data) w))
    as [[validated|e] w2]; [|done].
  destruct (_get_suggested_id validated) as [s|e]; [|done].
  by case_bool_decide.
Qed.

(** A scan leaves the set of set-up components alone. *)
Lemma components_scan (tag_id : string) (device_id : option string)
    (context : option hass_context) (w : world) :
  components (snd (async_scan_tag tag_id device_id context w))
  = components w.
Proof.
  destruct (decide (DOMAIN ∈ components w)) as [Hset|Hno].
  2: { by rewrite (scan_not_set_up_run _ _ _ _ Hno). }
  destruct (coll_data (tag_data w) !! tag_id) as [rec|] eqn:Hrec.
  - rewrite (scan_known _ _ _ _ _ Hset Hrec), discard_snd.
    by rewrite components_async_update_item.
  - rewrite (scan_unknown _ _ _ _ Hset Hrec), discard_snd.
    by rewrite components_async_create_item.
Qed.

(** One scan in a set-up system fires one event, that of the scan. *)
Lemma scan_fires_its_event (tag_id : string) (device_id : option string)
    (context : option hass_context) (w : world) :
  DOMAIN ∈ components w →
  ∃ ev,
    fired (snd (async_scan_tag tag_id device_id context w))
    = (fired w ++ [ev])%list
    ∧ event_of_scan ev (tag_id, device_id, context).
Proof.
  intros Hset.
  destruct (coll_data (tag_data w) !! tag_id) as [rec|] eqn:Hrec.
  - exists (scan_event tag_id (dict_get rec CONF_NAME) device_id context).
    split; [|done].
    by rewrite (fired_app _ _ _
                  (scan_known_journal _ device_id context _ _ Hset Hrec)).
  - exists (scan_event tag_id VNone device_id context).
    split; [|done].
    by rewrite (fired_app _ _ _
                  (scan_unknown_journal _ device_id context _ Hset Hrec)).
Qed.

(** X19.  Scans made one after the other in a set-up system leave it set
    up and put their events on the bus in the order of the scans: one
    event per scan, whether the scan returned or raised, each of type
    tag-scanned and carrying its scan's tag id, device id and context. *)
Theorem scans_fire_their_events_in_order
    (reqs : list scan_request) (w : world) :
  DOMAIN ∈ components w →
  DOMAIN ∈ components (run_scans reqs w)
  ∧ ∃ evs,
      fired (run_scans reqs w) = (fired w ++ evs)%list
      ∧ Forall2 event_of_scan evs reqs.
Proof.
  revert w. induction reqs as [|[[tag_id device_id] context] reqs IH];
    intros w Hset.
  - split; [done|]. exists []. split; [by rewrite app_nil_r|constructor].
  - destruct (scan_fires_its_event tag_id device_id context w Hset)
      as (ev & Hev & Hof).
    assert (DOMAIN ∈ components
              (snd (async_scan_tag tag_id device_id context w))) as Hset1
      by by rewrite components_scan.
    destruct (IH _ Hset1) as (Hset' & evs & Hevs & Hall).
    split; [done|]. exists (ev :: evs). split; [|by constructor].
    unfold run_scans in *. simpl. rewrite Hevs, Hev.
    by rewrite <- app_assoc.
Qed.

(** ** The further properties at the worked inputs *)

Lemma created_id_is_given_or_generated_witness :
  _process_create_data given_id_input fresh_world
    = (Ok (serialized given_id_input), fresh_world)
  ∧ ∃ s,
      serialized given_id_input !! TAG_ID = Some (VStr s)
      ∧ s ≠ ""
      ∧ _get_suggested_id (serialized given_id_input) = Ok s
      ∧ ((given_id_input !! TAG_ID = Some (VStr s)
          ∧ fresh_world = fresh_world)
         ∨ (given_id_input !! TAG_ID = Some (VStr "")
            ∧ s = next_uuid fresh_world
            ∧ drawn fresh_world = S (drawn fresh_world))).
Proof.
  assert (_process_create_data given_id_input fresh_world
          = (Ok (serialized given_id_input), fresh_world)) as Hrun
    by (vm_compute; reflexivity).
  split; [exact Hrun|].
  exact (created_id_is_given_or_generated given_id_input
           (serialized given_id_input) fresh_world fresh_world Hrun).
Defined.

Lemma created_record_has_input_fields_witness :
  _process_create_data empty_id_input fresh_world
    = (Ok (serialized (<[TAG_ID := VStr (next_uuid fresh_world)]>
                         empty_id_input)),
       snd (uuid4 fresh_world))
  ∧ dom (serialized (<[TAG_ID := VStr (next_uuid fresh_world)]>
                       empty_id_input))
    = dom empty_id_input
  ∧ dom (serialized (<[TAG_ID := VStr (next_uuid fresh_world)]>
                       empty_id_input))
    ⊆ dom CREATE_FIELDS.
Proof.
  assert (_process_create_data empty_id_input fresh_world
          = (Ok (serialized (<[TAG_ID := VStr (next_uuid fresh_world)]>
                               empty_id_input)),
             snd (uuid4 fresh_world))) as Hrun
    by (vm_compute; reflexivity).
  split; [exact Hrun|].
  exact (created_record_has_input_fields empty_id_input _ fresh_world _
           Hrun).
Defined.

Lemma process_create_data_errors_witness :
  _process_create_data {[ CONF_NAME := VStr "Kitchen" ]} fresh_world
    = (Raise (KeyError TAG_ID), fresh_world)
  ∧ fresh_world = fresh_world
  ∧ ((KeyError TAG_ID = Invalid
      ∧ CREATE_SCHEMA {[ CONF_NAME := VStr "Kitchen" ]} = Raise Invalid)
     ∨ (KeyError TAG_ID = KeyError TAG_ID
        ∧ accepts CREATE_SCHEMA {[ CONF_NAME := VStr "Kitchen" ]}
        ∧ ({[ CONF_NAME := VStr "Kitchen" ]} : dict) !! TAG_ID = None)).
Proof.
  assert (_process_create_data {[ CONF_NAME := VStr "Kitchen" ]} fresh_world
          = (Raise (KeyError TAG_ID), fresh_world)) as Hrun
    by (vm_compute; reflexivity).
  split; [exact Hrun|].
  exact (process_create_data_errors {[ CONF_NAME := VStr "Kitchen" ]}
           (KeyError TAG_ID) fresh_world fresh_world Hrun).
Defined.

Lemma accepted_name_is_nonempty_witness :
  _process_create_data front_door fresh_world
    = (Ok (serialized front_door), fresh_world)
  ∧ front_door !! CONF_NAME = Some (VStr "Front Door")
  ∧ _update_data front_door rename_patch
    = Ok (serialized rename_patch ∪ front_door)
  ∧ rename_patch !! CONF_NAME = Some (VStr "Back Door")
  ∧ (∃ s, VStr "Front Door" = VStr s ∧ s ≠ ""
          ∧ serialized front_door !! CONF_NAME = Some (VStr s))
  ∧ (∃ s, VStr "Back Door" = VStr s ∧ s ≠ ""
          ∧ (serialized rename_patch ∪ front_door) !! CONF_NAME
            = Some (VStr s)).
Proof.
  assert (_process_create_data front_door fresh_world
          = (Ok (serialized front_door), fresh_world)) as Hc
    by (vm_compute; reflexivity).
  assert (front_door !! CONF_NAME = Some (VStr "Front Door")) as Hcn
    by (vm_compute; reflexivity).
  assert (_update_data front_door rename_patch
          = Ok (serialized rename_patch ∪ front_door)) as Hu
    by (vm_compute; reflexivity).
  assert (rename_patch !! CONF_NAME = Some (VStr "Back Door")) as Hun
    by (vm_compute; reflexivity).
  repeat (split; [assumption|]).
  split.
  - exact (proj1 (accepted_name_is_nonempty front_door front_door
                    rename_patch (serialized front_door)
                    (serialized rename_patch ∪ front_door)
                    (VStr "Front Door") fresh_world fresh_world) Hc Hcn).
  - exact (proj2 (accepted_name_is_nonempty front_door front_door
                    rename_patch (serialized front_door)
                    (serialized rename_patch ∪ front_door)
                    (VStr "Back Door") fresh_world fresh_world) Hu Hun).
Defined.

Lemma unknown_field_is_refused_witness :
  ("colour" ∉ dom CREATE_FIELDS)
  ∧ ("colour" ∉ dom UPDATE_FIELDS)
  ∧ is_Some (colour_patch !! "colour")
  ∧ _process_create_data colour_patch fresh_world
    = (Raise Invalid, fresh_world)
  ∧ _update_data front_door colour_patch = Raise Invalid.
Proof.
  assert ("colour" ∉ dom CREATE_FIELDS) as Hc
    by (apply not_elem_of_dom; vm_compute; reflexivity).
  assert ("colour" ∉ dom UPDATE_FIELDS) as Hu
    by (apply not_elem_of_dom; vm_compute; reflexivity).
  assert (is_Some (colour_patch !! "colour")) as Hk
    by (exists (VStr "red"); vm_compute; reflexivity).
  repeat (split; [assumption|]).
  split.
  - exact (proj1 (unknown_field_is_refused colour_patch front_door
                    colour_patch "colour" fresh_world) Hc Hk).
  - exact (proj2 (unknown_field_is_refused colour_patch front_door
                    colour_patch "colour" fresh_world) Hu Hk).
Defined.

Lemma update_data_idempotent_witness :
  _update_data front_door rename_patch
    = Ok (serialized rename_patch ∪ front_door)
  ∧ _update_data front_door ∅ = Ok front_door
  ∧ _update_data (serialized rename_patch ∪ front_door) rename_patch
    = Ok (serialized rename_patch ∪ front_door).
Proof.
  assert (_update_data front_door rename_patch
          = Ok (serialized rename_patch ∪ front_door)) as Hu
    by (vm_compute; reflexivity).
  split; [exact Hu|].
  destruct (update_data_idempotent front_door rename_patch
              (serialized rename_patch ∪ front_door)) as [Hempty Htwice].
  split; [exact Hempty | exact (Htwice Hu)].
Defined.

Lemma update_data_composes_witness :
  _update_data front_door rename_patch
    = Ok (serialized rename_patch ∪ front_door)
  ∧ _update_data (serialized rename_patch ∪ front_door) describe_patch
    = Ok (describe_patch ∪ (serialized rename_patch ∪ front_door))
  ∧ _update_data front_door (describe_patch ∪ rename_patch)
    = Ok (describe_patch ∪ (serialized rename_patch ∪ front_door)).
Proof.
  assert (_update_data front_door rename_patch
          = Ok (serialized rename_patch ∪ front_door)) as H1
    by (vm_compute; reflexivity).
  assert (_update_data (serialized rename_patch ∪ front_door) describe_patch
          = Ok (describe_patch ∪ (serialized rename_patch ∪ front_door)))
    as H2 by (vm_compute; reflexivity).
  split; [exact H1|]. split; [exact H2|].
  exact (update_data_composes front_door rename_patch describe_patch _ _
           H1 H2).
Defined.

Lemma update_data_fields_witness :
  _update_data front_door rename_patch
    = Ok (serialized rename_patch ∪ front_door)
  ∧ dom (serialized rename_patch ∪ front_door)
    = dom rename_patch ∪ dom front_door.
Proof.
  assert (_update_data front_door rename_patch
          = Ok (serialized rename_patch ∪ front_door)) as Hu
    by (vm_compute; reflexivity).
  split; [exact Hu|].
  exact (update_data_fields front_door rename_patch _ Hu).
Defined.

Lemma update_data_errors_witness :
  _update_data front_door colour_patch = Raise Invalid
  ∧ Invalid = Invalid
  ∧ ¬ accepts UPDATE_SCHEMA colour_patch.
Proof.
  assert (_update_data front_door colour_patch = Raise Invalid) as Hu
    by (vm_compute; reflexivity).
  split; [exact Hu|].
  exact (proj1 (update_data_errors front_door colour_patch Invalid) Hu).
Defined.

Lemma home_world_set_up : DOMAIN ∈ components home_world.
Proof. simpl. apply elem_of_singleton. reflexivity. Defined.

Lemma fresh_world_set_up : DOMAIN ∈ components fresh_world.
Proof. simpl. apply elem_of_singleton. reflexivity. Defined.

Lemma scan_known_tag_updates_record_witness :
  DOMAIN ∈ components home_world
  ∧ coll_data (tag_data home_world) !! "T-1" = Some front_door
  ∧ (let out := async_scan_tag "T-1" (Some "reader") None home_world in
     ∃ rec',
       fst out = Ok tt
       ∧ journal (snd out)
         = [Fired (scan_event "T-1" (VStr "Front Door") (Some "reader")
                     None);
            CallUpdate "T-1" (scan_patch sample_time (Some "reader"))]
       ∧ coll_data (tag_data (snd out))
         = <["T-1" := rec']> (coll_data (tag_data home_world))
       ∧ rec' !! LAST_SCANNED = Some (VStr (isoformat sample_time))
       ∧ rec' !! DEVICE_ID = Some (VStr "reader")
       ∧ (∀ key, key ≠ LAST_SCANNED → key ≠ DEVICE_ID →
            rec' !! key = front_door !! key)).
Proof.
  assert (coll_data (tag_data home_world) !! "T-1" = Some front_door)
    as Hrec by (vm_compute; reflexivity).
  split; [exact home_world_set_up|]. split; [exact Hrec|].
  exact (scan_known_tag_updates_record "T-1" "reader" None front_door
           home_world home_world_set_up Hrec).
Defined.

Lemma scan_leaves_other_records_witness :
  "T-1" ≠ "T-9"
  ∧ "T-1" ≠ next_uuid home_world
  ∧ coll_data (tag_data
      (snd (async_scan_tag "T-9" (Some "reader") None home_world))) !! "T-1"
    = coll_data (tag_data home_world) !! "T-1".
Proof.
  assert ("T-1" ≠ "T-9") as Htag by discriminate.
  assert ("T-1" ≠ next_uuid home_world) as Huuid
    by (vm_compute; discriminate).
  split; [exact Htag|]. split; [exact Huuid|].
  exact (scan_leaves_other_records "T-9" (Some "reader") None home_world
           "T-1" Htag Huuid).
Defined.

Lemma scan_keeps_ids_consistent_witness :
  ids_consistent (coll_data (tag_data home_world))
  ∧ ids_consistent
      (coll_data (tag_data
         (snd (async_scan_tag "" (Some "reader") None home_world)))).
Proof.
  assert (ids_consistent (coll_data (tag_data home_world))) as Hinv.
  { intros key rec Hlook. simpl in Hlook.
    apply lookup_singleton_Some in Hlook as [<- <-].
    split; [vm_compute; reflexivity | discriminate]. }
  split; [exact Hinv|].
  exact (scan_keeps_ids_consistent "" (Some "reader") None home_world Hinv).
Defined.


Lemma scan_unknown_tag_without_device_raises_witness :
  DOMAIN ∈ components fresh_world
  ∧ coll_data (tag_data fresh_world) !! "T-9" = None
  ∧ (let out := async_scan_tag "T-9" None None fresh_world in
     fst out = Raise Invalid
     ∧ fired (snd out) = [scan_event "T-9" VNone None None]
     ∧ tag_data (snd out) = tag_data fresh_world
     ∧ drawn (snd out) = drawn fresh_world).
Proof.
  assert (coll_data (tag_data fresh_world) !! "T-9" = None) as Hrec
    by (vm_compute; reflexivity).
  split; [exact fresh_world_set_up|]. split; [exact Hrec|].
  exact (scan_unknown_tag_without_device_raises "T-9" None fresh_world
           fresh_world_set_up Hrec).
Defined.

Lemma scan_of_empty_tag_id_uses_uuid_witness :
  DOMAIN ∈ components fresh_world
  ∧ coll_data (tag_data fresh_world) !! "" = None
  ∧ coll_data (tag_data fresh_world) !! next_uuid fresh_world = None
  ∧ (let out := async_scan_tag "" (Some "reader") None fresh_world in
     drawn (snd out) = 1
     ∧ coll_data (tag_data (snd out)) !! "" = None
     ∧ ∃ item,
         fst out = Ok tt
         ∧ coll_data (tag_data (snd out))
           = <[next_uuid fresh_world := item]> ∅
         ∧ item !! TAG_ID = Some (VStr (next_uuid fresh_world))).
Proof.
  assert (coll_data (tag_data fresh_world) !! "" = None) as Hrec
    by (vm_compute; reflexivity).
  assert (coll_data (tag_data fresh_world) !! next_uuid fresh_world = None)
    as Hfree by (vm_compute; reflexivity).
  split; [exact fresh_world_set_up|]. split; [exact Hrec|].
  split; [exact Hfree|].
  destruct (scan_of_empty_tag_id_uses_uuid "reader" None fresh_world
              fresh_world_set_up Hrec) as (Hdrawn & Hnone & Hcreate & _).
  split; [exact Hdrawn|]. split; [exact Hnone|]. exact (Hcreate Hfree).
Defined.

Lemma scanned_tag_is_taken_witness :
  "T-9" ≠ ""
  ∧ fst (async_scan_tag "T-9" (Some "reader") None fresh_world) = Ok tt
  ∧ (let w' := snd (async_scan_tag "T-9" (Some "reader") None fresh_world) in
     is_Some (coll_data (tag_data w') !! "T-9")
     ∧ fst (generate_id "T-9" w') = Raise (TagIDExistsError "T-9")).
Proof.
  assert ("T-9" ≠ "") as Hne by discriminate.
  assert (fst (async_scan_tag "T-9" (Some "reader") None fresh_world)
          = Ok tt) as Hok by (vm_compute; reflexivity).
  split; [exact Hne|]. split; [exact Hok|].
  exact (scanned_tag_is_taken "T-9" (Some "reader") None fresh_world Hne Hok).
Defined.

Lemma created_name_is_in_scan_event_witness :
  DOMAIN ∈ components fresh_world
  ∧ CREATE_SCHEMA front_door = Ok front_door
  ∧ front_door !! TAG_ID = Some (VStr "T-1")
  ∧ "T-1" ≠ ""
  ∧ front_door !! CONF_NAME = Some (VStr "Front Door")
  ∧ coll_data (tag_data fresh_world) !! "T-1" = None
  ∧ (let w1 := snd (async_create_item front_door fresh_world) in
     let out := async_scan_tag "T-1" (Some "reader") None w1 in
     ∃ rec,
       fst out = Ok tt
       ∧ fired (snd out)
         = [scan_event "T-1" (VStr "Front Door") (Some "reader") None]
       ∧ coll_data (tag_data (snd out)) !! "T-1" = Some rec
       ∧ rec !! CONF_NAME = Some (VStr "Front Door")
       ∧ rec !! TAG_ID = Some (VStr "T-1")).
Proof.
  assert (CREATE_SCHEMA front_door = Ok front_door) as Hs
    by (vm_compute; reflexivity).
  assert (front_door !! TAG_ID = Some (VStr "T-1")) as Hk
    by (vm_compute; reflexivity).
  assert ("T-1" ≠ "") as Hne by discriminate.
  assert (front_door !! CONF_NAME = Some (VStr "Front Door")) as Hn
    by (vm_compute; reflexivity).
  assert (coll_data (tag_data fresh_world) !! "T-1" = None) as Hfree
    by (vm_compute; reflexivity).
  split; [exact fresh_world_set_up|]. repeat (split; [assumption|]).
  exact (created_name_is_in_scan_event front_door front_door "T-1"
           "Front Door" "reader" None fresh_world fresh_world_set_up
           Hs Hk Hne Hn Hfree).
Defined.

Lemma scans_fire_their_events_in_order_witness :
  DOMAIN ∈ components home_world
  ∧ DOMAIN ∈ components
      (run_scans [("T-1", None, None); ("T-9", Some "reader", None)]
         home_world)
  ∧ ∃ evs,
      fired (run_scans [("T-1", None, None); ("T-9", Some "reader", None)]
               home_world)
      = evs
      ∧ Forall2 event_of_scan evs
          [("T-1", None, None); ("T-9", Some "reader", None)].
Proof.
  split; [exact home_world_set_up|].
  exact (scans_fire_their_events_in_order
           [("T-1", None, None); ("T-9", Some "reader", None)]
           home_world home_world_set_up).
Defined.
